(** * Dashboard: the client-side table logic and the transformation contract

    A shallow embedding of the React dashboard of [hanselcarter/dashboard]:
    the [useDashboard] hook (reducer, client-side sorting and filtering,
    column discovery), the [ApiService] calls, the [App] handlers, and the
    transformation engine the client talks to.  The engine (a Django
    service) has no source in the repository; the parts of it that are
    reasoned about are modelled from the specification and are marked so.

    Layout: part I holds every definition, part II the theorems. *)

From Stdlib Require Import ZArith Permutation Sorted Ascii.
From Stdlib Require Import Floats.SpecFloat.
From stdpp Require Import base list strings gmap pretty.

Open Scope Z_scope.

(* ===================================================================== *)
(** * Part I: definitions                                                *)
(* ===================================================================== *)

(** ** JavaScript numbers

    A JS number is an IEEE 754 binary64 value.  [spec_float] is the
    inductive description of such values (sign, mantissa, exponent, with
    zeros, infinities and one NaN); its operations are instantiated at 53
    bits of precision and a maximal exponent of 1024.  Finite values are
    kept canonical by the rounding functions, so that structural equality
    coincides with equality of bit patterns. *)

Module Number.

Abbreviation number := spec_float.

Definition prec : Z := 53.
Definition emax : Z := 1024.

Definition NaN : number := S754_nan.
Definition zero : number := S754_zero false.
Definition Infinity : number := S754_infinity false.

#[global] Instance number_eq_dec : EqDecision number.
Proof. solve_decision. Defined.

(** The arithmetic and the comparisons used by the sources:
    [a - b], [a + b], [a / b], [a < b], [a > b], [a == b]. *)
Definition sub (a b : number) : number := SFsub prec emax a b.
Definition add (a b : number) : number := SFadd prec emax a b.
Definition div (a b : number) : number := SFdiv prec emax a b.
Definition lt (a b : number) : bool := SFltb a b.
Definition gt (a b : number) : bool := SFltb b a.
Definition eqb (a b : number) : bool := SFeqb a b.

Definition isNaN (a : number) : bool :=
  match a with S754_nan => true | _ => false end.

(** The number nearest to [(-1)^neg * d * 10^e], ties to even: the value
    of a decimal literal with digits [d] and decimal exponent [e]. *)
Definition of_decimal (neg : bool) (d e : Z) : number :=
  match d with
  | Z0 => S754_zero neg
  | Zneg _ => S754_nan
  | Zpos _ =>
      if 0 <=? e then binary_round prec emax neg (Z.to_pos (d * 10 ^ e)) 0
      else
        let '(q, e', l) := SFdiv_core_binary prec emax d 0 (10 ^ (- e)) 0 in
        binary_round_aux prec emax neg q e' l
  end.

(** An integer literal. *)
Definition of_Z (z : Z) : number :=
  match z with
  | Zneg p => of_decimal true (Zpos p) 0
  | _ => of_decimal false z 0
  end.

(** *** [Number::toString] (radix 10)

    For a positive finite [x = N / D] the digits are the shortest decimal
    [s * 10^(n-k)] that reads back as [x]; among several of that length
    the one closest to [x]. *)

(** [N / D < 10^n] *)
Definition lt_pow10 (N D n : Z) : bool :=
  if 0 <=? n then N <? D * 10 ^ n else N * 10 ^ (- n) <? D.

Fixpoint mag10_from (fuel : nat) (n N D : Z) : Z :=
  match fuel with
  | O => n
  | S fuel' => if lt_pow10 N D n then n else mag10_from fuel' (n + 1) N D
  end.

(** The [n] with [10^(n-1) <= N/D < 10^n]; binary64 values lie between
    [10^-324] and [10^309]. *)
Definition mag10 (N D : Z) : Z := mag10_from 640 (-323) N D.

(** [floor ((N / D) / 10^t)] *)
Definition floor_scaled (N D t : Z) : Z :=
  if 0 <=? t then N / (D * 10 ^ t) else (N * 10 ^ (- t)) / D.

(** Compares [N/D - lo*10^t] with [(lo+1)*10^t - N/D]. *)
Definition nearer (N D t lo : Z) : comparison :=
  if 0 <=? t then 2 * N ?= (2 * lo + 1) * 10 ^ t * D
  else 2 * N * 10 ^ (- t) ?= (2 * lo + 1) * D.

Fixpoint shortest (fuel : nat) (k : Z) (x : number) (N D n0 : Z)
  : Z * Z * Z :=
  let t := n0 - k in
  let lo := floor_scaled N D t in
  let '(nhi, hi) :=
    if lo + 1 <? 10 ^ k then (n0, lo + 1) else (n0 + 1, 10 ^ (k - 1)) in
  let ok_lo := bool_decide (of_decimal false lo t = x) in
  let ok_hi := bool_decide (of_decimal false hi (nhi - k) = x) in
  match fuel with
  | O => (n0, k, lo)
  | S fuel' =>
      match ok_lo, ok_hi with
      | true, true =>
          match nearer N D t lo with
          | Lt => (n0, k, lo)
          | Gt => (nhi, k, hi)
          | Eq => if Z.even lo then (n0, k, lo) else (nhi, k, hi)
          end
      | true, false => (n0, k, lo)
      | false, true => (nhi, k, hi)
      | false, false => shortest fuel' (k + 1) x N D n0
      end
  end.

Definition zeros (n : Z) : string :=
  String.string_of_list_ascii (replicate (Z.to_nat n) "0"%char).

Definition str_take (n : Z) (s : string) : string :=
  String.substring 0 (Z.to_nat n) s.
Definition str_drop (n : Z) (s : string) : string :=
  String.substring (Z.to_nat n) (String.length s - Z.to_nat n) s.

Definition format_digits (n k s : Z) : string :=
  let ds := pretty s in
  if (k <=? n) && (n <=? 21) then ds +:+ zeros (n - k)
  else if (0 <? n) && (n <=? 21) then
    str_take n ds +:+ "." +:+ str_drop n ds
  else if (-6 <? n) && (n <=? 0) then "0." +:+ zeros (- n) +:+ ds
  else
    let e := n - 1 in
    let es := (if e <? 0 then "-" else "+") +:+ pretty (Z.abs e) in
    if k =? 1 then ds +:+ "e" +:+ es
    else str_take 1 ds +:+ "." +:+ str_drop 1 ds +:+ "e" +:+ es.

Definition toString (x : number) : string :=
  match x with
  | S754_nan => "NaN"
  | S754_zero _ => "0"
  | S754_infinity s => if s then "-Infinity" else "Infinity"
  | S754_finite sg m e =>
      let N := if 0 <=? e then Zpos m * 2 ^ e else Zpos m in
      let D := if 0 <=? e then 1 else 2 ^ (- e) in
      let '(n, k, s) :=
        shortest 17 1 (S754_finite false m e) N D (mag10 N D) in
      (if sg then "-" else "") +:+ format_digits n k s
  end.

End Number.

Export Number.

(** ** JavaScript strings

    A string is its sequence of UTF-16 code units; the embedding keeps the
    code units below 256, one [ascii] each (the Latin-1 range).  On that
    range [toLowerCase] maps each code unit by itself; beyond it the
    language lowers some letters by what stands around them (the Greek
    final sigma), so no statement below relies on lower-casing a
    string piece by piece. *)

Module JsString.

Definition code (c : ascii) : N := N_of_ascii c.

(** [String.prototype.toLowerCase] on one code unit: A-Z, and the
    Latin-1 capitals U+00C0-U+00DE except the multiplication sign
    U+00D7, move up by 32. *)
Definition lower_char (c : ascii) : ascii :=
  let n := code c in
  if ((65 <=? n) && (n <=? 90)
      || (192 <=? n) && (n <=? 222) && negb (n =? 215))%N
  then ascii_of_N (n + 32) else c.

Fixpoint toLowerCase (s : string) : string :=
  match s with
  | EmptyString => EmptyString
  | String c s' => String (lower_char c) (toLowerCase s')
  end.

(** [s.includes(t)]: [t] occurs in [s] as a contiguous run of code
    units, at any position. *)
Fixpoint includes (s t : string) : bool :=
  if String.prefix t s then true
  else match s with
       | EmptyString => false
       | String _ s' => includes s' t
       end.

(** White space and line terminators, as [parseFloat] strips them from
    the front: TAB, LF, VT, FF, CR, SP, NBSP. *)
Definition is_white_space (c : ascii) : bool :=
  let n := code c in
  ((9 <=? n) && (n <=? 13) || (n =? 32) || (n =? 160))%N.

Fixpoint trim_start (s : string) : string :=
  match s with
  | EmptyString => EmptyString
  | String c s' => if is_white_space c then trim_start s' else s
  end.

Definition is_digit (c : ascii) : bool :=
  let n := code c in ((48 <=? n) && (n <=? 57))%N.

Definition digit_val (c : ascii) : Z := Z.of_N (code c) - 48.

(** Reads the longest run of decimal digits at the front of [s]:
    the mantissa extended by those digits, how many there were, and the
    rest of the string. *)
Fixpoint read_digits (s : string) (acc count : Z) : Z * Z * string :=
  match s with
  | EmptyString => (acc, count, EmptyString)
  | String c s' =>
      if is_digit c then read_digits s' (10 * acc + digit_val c) (count + 1)
      else (acc, count, s)
  end.

(** The value of an [ExponentPart] at the front of [s]; [0] when there
    is none (an [e] that no digit follows is not part of the literal). *)
Definition read_exponent (s : string) : Z :=
  match s with
  | String c r =>
      if bool_decide (c = "e"%char) || bool_decide (c = "E"%char) then
        let '(neg, r') :=
          match r with
          | String "+"%char r' => (false, r')
          | String "-"%char r' => (true, r')
          | _ => (false, r)
          end in
        let '(v, cnt, _) := read_digits r' 0 0 in
        if cnt =? 0 then 0 else if neg then - v else v
      else 0
  | EmptyString => 0
  end.

(** The longest prefix of [s] that is a [StrUnsignedDecimalLiteral]:
    [Infinity], digits with an optional fraction and exponent, or a
    fraction that starts with the point. *)
Definition parse_unsigned (neg : bool) (s : string) : number :=
  if String.prefix "Infinity" s then S754_infinity neg
  else
    let '(ip, ic, r1) := read_digits s 0 0 in
    match r1 with
    | String "."%char r2 =>
        let '(fp, fc, r3) := read_digits r2 ip 0 in
        if (ic =? 0) && (fc =? 0) then NaN
        else of_decimal neg fp (read_exponent r3 - fc)
    | _ => if ic =? 0 then NaN else of_decimal neg ip (read_exponent r1)
    end.

(** The global [parseFloat]: leading white space is dropped, the longest
    prefix that is a decimal literal is converted, and [NaN] is returned
    when no prefix is one. *)
Definition parseFloat (s : string) : number :=
  let t := trim_start s in
  match t with
  | String "+"%char r => parse_unsigned false r
  | String "-"%char r => parse_unsigned true r
  | _ => parse_unsigned false t
  end.

End JsString.

Export JsString.

(** ** JavaScript values

    The values a [DataRecord] field holds: the JSON scalars, and
    [undefined] for what a missing property reads as. *)

Inductive JsValue : Type :=
  | JsUndefined
  | JsNull
  | JsBoolean (b : bool)
  | JsNumber (n : number)
  | JsString (s : string).

#[global] Instance JsValue_eq_dec : EqDecision JsValue.
Proof. solve_decision. Defined.

(** The [typeof] operator. *)
Definition typeof (v : JsValue) : string :=
  match v with
  | JsUndefined => "undefined"
  | JsNull => "object"
  | JsBoolean _ => "boolean"
  | JsNumber _ => "number"
  | JsString _ => "string"
  end.

(** [String(v)] *)
Definition ToString (v : JsValue) : string :=
  match v with
  | JsUndefined => "undefined"
  | JsNull => "null"
  | JsBoolean b => if b then "true" else "false"
  | JsNumber n => Number.toString n
  | JsString s => s
  end.

(** ** Records and tables ([types/index.ts])

    [DataRecord] is an object with string keys.  It is kept as the list
    of its own properties in property order, which is the order
    [Object.keys] reports; a key occurs once. *)

Abbreviation DataRecord := (list (string * JsValue)).

(** [record[key]]: the value of the own property [key], and [undefined]
    without one.  A record is a plain object, so a key that it does not
    own is looked up in [Object.prototype]: [get] is the property read
    for every key but the [Object_prototype_keys] that the record does
    not own, and the statements about a column that a record lacks
    exclude those keys. *)
Fixpoint get (record : DataRecord) (key : string) : JsValue :=
  match record with
  | [] => JsUndefined
  | (k, v) :: rest => if bool_decide (k = key) then v else get rest key
  end.

(** [Object.keys(record)] *)
Definition Object_keys (record : DataRecord) : list string := record.*1.

(** The property names of [Object.prototype], which every plain object
    inherits. *)
Definition Object_prototype_keys : list string :=
  [ "constructor"; "__defineGetter__"; "__defineSetter__"; "hasOwnProperty";
    "__lookupGetter__"; "__lookupSetter__"; "isPrototypeOf";
    "propertyIsEnumerable"; "toString"; "valueOf"; "__proto__";
    "toLocaleString" ].


(** ** API and UI types ([types/index.ts]) *)

(** A JSON value, for what [TransformationParameters] and response
    metadata hold (strings, arrays of strings, objects). *)
#[local] Unset Elimination Schemes.
Inductive Json : Type :=
  | JScalar (v : JsValue)
  | JArray (items : list Json)
  | JObject (fields : list (string * Json)).
#[local] Set Elimination Schemes.

Definition JStr (s : string) : Json := JScalar (JsString s).
Definition JNum (z : Z) : Json := JScalar (JsNumber (of_Z z)).

(** JS truthiness: the condition of an [if] or of [!]. *)
Definition truthy_value (v : JsValue) : bool :=
  match v with
  | JsUndefined | JsNull => false
  | JsBoolean b => b
  | JsNumber n =>
      match n with S754_zero _ | S754_nan => false | _ => true end
  | JsString s => negb (bool_decide (s = ""))
  end.

Definition truthy (j : Json) : bool :=
  match j with
  | JScalar v => truthy_value v
  | JArray _ | JObject _ => true
  end.

(** [TransformationParameters]: an object whose keys are all optional
    ([group_by], [aggregations], [conditions], [columns], [method],
    [index], [pivot_columns], [values], [aggfunc]). *)
Abbreviation TransformationParameters := (gmap string Json).

Record TransformationRequest : Type := {
  data : list DataRecord;
  transformation_type : string;
  parameters : TransformationParameters;
}.

Record TransformationResponse : Type := {
  message : string;
  response_data : list DataRecord;
  metadata : gmap string Json;
  processing_time_ms : number;
}.

Record LoadingState : Type := {
  isLoading : bool;
  error : option string;
}.

Inductive Direction : Type := asc | desc.

Record SortConfig : Type := {
  key : string;
  direction : Direction;
}.

(** [operator] is one of ["contains"], ["equals"], ["greater"], ["less"];
    it is kept as the string it is, since the filter switches on it with
    a default branch. *)
Record FilterConfig : Type := {
  column : string;
  value : string;
  operator : string;
}.

Record DashboardState : Type := {
  originalData : list DataRecord;
  transformedData : list DataRecord;
  selectedTransformation : string;
  st_parameters : TransformationParameters;
  loading : LoadingState;
  sortConfig : option SortConfig;
  filters : list FilterConfig;
}.

(** ** The [useDashboard] hook (second module of [hooks/useApi.ts]) *)

Inductive DashboardAction : Type :=
  | SET_ORIGINAL_DATA (payload : list DataRecord)
  | SET_TRANSFORMED_DATA (payload : list DataRecord)
  | SET_TRANSFORMATION (payload : string)
  | SET_PARAMETERS (payload : TransformationParameters)
  | SET_LOADING (payload : LoadingState)
  | SET_SORT (payload : option SortConfig)
  | ADD_FILTER (payload : FilterConfig)
  | REMOVE_FILTER (payload : nat)
  | CLEAR_FILTERS
  | RESET_STATE.

Definition initialState : DashboardState := {|
  originalData := [];
  transformedData := [];
  selectedTransformation := "";
  st_parameters := ∅;
  loading := {| isLoading := false; error := None |};
  sortConfig := None;
  filters := [];
|}.

(** In [SET_PARAMETERS] the spread [{...state.parameters, ...payload}]
    lets the payload win on a shared key; in [REMOVE_FILTER] the filter
    at the index [payload] is the one that is dropped. *)
Definition dashboardReducer (state : DashboardState) (action : DashboardAction)
  : DashboardState :=
  match action with
  | SET_ORIGINAL_DATA payload =>
      {| originalData := payload;
         transformedData := transformedData state;
         selectedTransformation := selectedTransformation state;
         st_parameters := st_parameters state;
         loading := loading state;
         sortConfig := sortConfig state;
         filters := filters state |}
  | SET_TRANSFORMED_DATA payload =>
      {| originalData := originalData state;
         transformedData := payload;
         selectedTransformation := selectedTransformation state;
         st_parameters := st_parameters state;
         loading := loading state;
         sortConfig := sortConfig state;
         filters := filters state |}
  | SET_TRANSFORMATION payload =>
      {| originalData := originalData state;
         transformedData := transformedData state;
         selectedTransformation := payload;
         st_parameters := ∅;
         loading := loading state;
         sortConfig := sortConfig state;
         filters := filters state |}
  | SET_PARAMETERS payload =>
      {| originalData := originalData state;
         transformedData := transformedData state;
         selectedTransformation := selectedTransformation state;
         st_parameters := payload ∪ st_parameters state;
         loading := loading state;
         sortConfig := sortConfig state;
         filters := filters state |}
  | SET_LOADING payload =>
      {| originalData := originalData state;
         transformedData := transformedData state;
         selectedTransformation := selectedTransformation state;
         st_parameters := st_parameters state;
         loading := payload;
         sortConfig := sortConfig state;
         filters := filters state |}
  | SET_SORT payload =>
      {| originalData := originalData state;
         transformedData := transformedData state;
         selectedTransformation := selectedTransformation state;
         st_parameters := st_parameters state;
         loading := loading state;
         sortConfig := payload;
         filters := filters state |}
  | ADD_FILTER payload =>
      {| originalData := originalData state;
         transformedData := transformedData state;
         selectedTransformation := selectedTransformation state;
         st_parameters := st_parameters state;
         loading := loading state;
         sortConfig := sortConfig state;
         filters := filters state ++ [payload] |}
  | REMOVE_FILTER payload =>
      {| originalData := originalData state;
         transformedData := transformedData state;
         selectedTransformation := selectedTransformation state;
         st_parameters := st_parameters state;
         loading := loading state;
         sortConfig := sortConfig state;
         filters := delete payload (filters state) |}
  | CLEAR_FILTERS =>
      {| originalData := originalData state;
         transformedData := transformedData state;
         selectedTransformation := selectedTransformation state;
         st_parameters := st_parameters state;
         loading := loading state;
         sortConfig := sortConfig state;
         filters := [] |}
  | RESET_STATE => initialState
  end.

(** *** [Array.prototype.sort]

    The built-in sort orders by the sign of the comparator ([NaN] counts
    as zero) and is stable.  It is modelled by a stable insertion sort:
    [x], which stood before every element of [l], is moved behind [y]
    only when [cmp x y > 0].  For a comparator that is a consistent order
    this is the result the language fixes; for one that is not, the
    language leaves the order to the engine. *)

Fixpoint sort_insert {A : Type} (cmp : A → A → number) (x : A) (l : list A)
  : list A :=
  match l with
  | [] => [x]
  | y :: l' =>
      if Number.gt (cmp x y) zero then y :: sort_insert cmp x l' else x :: l
  end.

Definition Array_sort {A : Type} (cmp : A → A → number) (l : list A) : list A :=
  foldr (sort_insert cmp) [] l.

(** The comparator does not put [a] after [b]: [cmp a b] is not
    positive. *)
Definition not_after {A : Type} (cmp : A → A → number) (a b : A) : bool :=
  negb (Number.gt (cmp a b) zero).

(** The language's consistent comparator, on the elements of [l]:
    [cmp a b] is positive exactly when [cmp b a] is negative, and not
    coming after is transitive.  The comparator then divides the elements
    into classes that are totally ordered, and the language fixes what
    [sort] returns. *)
Definition consistent_on {A : Type} (cmp : A → A → number) (l : list A) : bool :=
  forallb (λ a,
    forallb (λ b,
      bool_decide (Number.gt (cmp a b) zero = Number.lt (cmp b a) zero)
      && forallb (λ c,
           implb (not_after cmp a b && not_after cmp b c) (not_after cmp a c)) l)
      l) l.

Section UseDashboard.

(** [String.prototype.localeCompare]: negative, zero or positive; the
    collation is the host's, so it is a parameter here. *)
Variable localeCompare : string → string → number.

(** The comparator [sortedData] hands to [sort]. *)
Definition compareRecords (cfg : SortConfig) (a b : DataRecord) : number :=
  let aVal := get a (key cfg) in
  let bVal := get b (key cfg) in
  match aVal, bVal with
  | JsNumber x, JsNumber y =>
      match direction cfg with
      | asc => Number.sub x y
      | desc => Number.sub y x
      end
  | JsString x, JsString y =>
      match direction cfg with
      | asc => localeCompare x y
      | desc => localeCompare y x
      end
  | _, _ =>
      let aStr := ToString aVal in
      let bStr := ToString bVal in
      match direction cfg with
      | asc => localeCompare aStr bStr
      | desc => localeCompare bStr aStr
      end
  end.

(** [sortedData]: a sorted copy, or the list itself without a sort
    configuration. *)
Definition sortedData (state : DashboardState) : list DataRecord :=
  match sortConfig state with
  | None => transformedData state
  | Some cfg => Array_sort (compareRecords cfg) (transformedData state)
  end.

(** The callback of [state.filters.every]: one filter on one record.
    In the two ordering branches the [match] is the guard
    [typeof value === "number" &&], which keeps the comparison from being
    evaluated on anything but a number; any other operator falls to the
    [default] branch. *)
Definition matchesFilter (record : DataRecord) (filter : FilterConfig) : bool :=
  let v := get record (column filter) in
  let filterValue := toLowerCase (value filter) in
  if bool_decide (operator filter = "contains") then
    includes (toLowerCase (ToString v)) filterValue
  else if bool_decide (operator filter = "equals") then
    bool_decide (toLowerCase (ToString v) = filterValue)
  else if bool_decide (operator filter = "greater") then
    match v with
    | JsNumber n => Number.gt n (parseFloat (value filter))
    | _ => false
    end
  else if bool_decide (operator filter = "less") then
    match v with
    | JsNumber n => Number.lt n (parseFloat (value filter))
    | _ => false
    end
  else true.

(** [filteredAndSortedData] *)
Definition filteredAndSortedData (state : DashboardState) : list DataRecord :=
  if bool_decide (length (filters state) = 0%nat) then sortedData state
  else
    filter (λ record, forallb (matchesFilter record) (filters state))
      (sortedData state).

(** [availableColumns] *)
Definition availableColumns (state : DashboardState) : list string :=
  match transformedData state with
  | [] => []
  | first :: _ => Object_keys first
  end.

(** [numericColumns] *)
Definition numericColumns (state : DashboardState) : list string :=
  match originalData state with
  | [] => []
  | firstRecord :: _ =>
      filter (λ k, typeof (get firstRecord k) = "number")
        (Object_keys firstRecord)
  end.

Definition displayData := filteredAndSortedData.

(** [handleSort]: ascending, then descending, then no sort. *)
Definition handleSort (k : string) (state : DashboardState) : DashboardState :=
  let newSort :=
    match sortConfig state with
    | None => Some {| key := k; direction := asc |}
    | Some currentSort =>
        if negb (bool_decide (key currentSort = k)) then
          Some {| key := k; direction := asc |}
        else match direction currentSort with
             | asc => Some {| key := k; direction := desc |}
             | desc => None
             end
    end in
  dashboardReducer state (SET_SORT newSort).

End UseDashboard.

(** ** The API client ([ApiService], in [components/DataTable.tsx]) *)

(** What a call that may throw yields: the value it returns, or the
    message of the [Error] it throws. *)
Inductive Outcome (A : Type) : Type :=
  | Resolved (a : A)
  | Rejected (message : string).
Arguments Resolved {A} a.
Arguments Rejected {A} message.

(** What [apiClient.post] rejects with. *)
Record ApiError : Type := {
  detail : option string;
  api_error : option string;
  api_message : option string;
}.

Inductive Thrown : Type :=
  | AxiosError (body : option ApiError) (axios_message : string)
  | OtherError (error_message : string)
  | NotAnError.

(** [a || b] on optional strings: the first that is present and not
    empty. *)
Definition or_else (a : option string) (b : string) : string :=
  match a with
  | Some s => if bool_decide (s = "") then b else s
  | None => b
  end.

Module ApiService.

Definition handleError (e : Thrown) : string :=
  match e with
  | AxiosError body axios_message =>
      let last := or_else (Some axios_message) "An unexpected error occurred" in
      match body with
      | Some b =>
          or_else (detail b) (or_else (api_error b) (or_else (api_message b) last))
      | None => last
      end
  | OtherError m => m
  | NotAnError => "Unknown error occurred"
  end.

(** [try { ... apiClient.post(path, body) ... } catch (error) { throw
    this.handleError(error) }], for an HTTP layer [post] that says what a
    POST of a body to a path returns. *)
Definition post_or_throw {Body Reply : Type}
    (post : string → Body → Thrown + Reply)
    (path : string) (body : Body) : Outcome Reply :=
  match post path body with
  | inr response => Resolved response
  | inl e => Rejected (handleError e)
  end.

(** [ApiService.transformData]: the request is the body. *)
Definition transformData {Reply : Type}
    (post : string → TransformationRequest → Thrown + Reply)
    (request : TransformationRequest) : Outcome Reply :=
  post_or_throw post "/transform/" request.

(** [ApiService.batchTransform]: the body is [{transformations: requests}],
    and the response's data is returned as it came. *)
Record BatchBody : Type := { transformations : list TransformationRequest }.

Definition batchTransform {Reply : Type}
    (post : string → BatchBody → Thrown + Reply)
    (requests : list TransformationRequest) : Outcome Reply :=
  post_or_throw post "/batch-transform/" {| transformations := requests |}.

End ApiService.

(** [generateSampleData] *)
Definition row4 (k1 : string) (v1 : JsValue) (k2 : string) (v2 : JsValue)
    (k3 : string) (v3 : JsValue) (k4 : string) (v4 : JsValue) : DataRecord :=
  [(k1, v1); (k2, v2); (k3, v3); (k4, v4)].

Definition sale (region : string) (sales : Z) (product quarter : string)
  : DataRecord :=
  row4 "region" (JsString region) "sales" (JsNumber (of_Z sales))
       "product" (JsString product) "quarter" (JsString quarter).

Definition user (name : string) (age : Z) (city : string) (score : Z)
  : DataRecord :=
  row4 "name" (JsString name) "age" (JsNumber (of_Z age))
       "city" (JsString city) "score" (JsNumber (of_Z score)).

Definition product (name : string) (price quantity : Z) (category : string)
  : DataRecord :=
  row4 "name" (JsString name) "price" (JsNumber (of_Z price))
       "quantity" (JsNumber (of_Z quantity)) "category" (JsString category).

Definition generateSampleData (type : string) : list DataRecord :=
  if bool_decide (type = "sales") then
    [ sale "North" 100 "A" "Q1"; sale "North" 150 "B" "Q1";
      sale "South" 200 "A" "Q1"; sale "South" 120 "B" "Q1";
      sale "North" 180 "A" "Q2"; sale "North" 220 "B" "Q2";
      sale "South" 160 "A" "Q2"; sale "South" 190 "B" "Q2" ]
  else if bool_decide (type = "users") then
    [ user "Alice" 30 "New York" 85; user "Bob" 25 "Los Angeles" 92;
      user "Charlie" 35 "New York" 78; user "Diana" 28 "Chicago" 88;
      user "Eve" 32 "Los Angeles" 95; user "Frank" 29 "New York" 82 ]
  else if bool_decide (type = "products") then
    [ product "Product A" 100 10 "Electronics";
      product "Product B" 200 5 "Electronics";
      product "Product C" 150 8 "Clothing";
      product "Product D" 80 15 "Clothing";
      product "Product E" 300 3 "Electronics" ]
  else [].

(** ** The [useApi] hook ([hooks/useApi.ts])

    [execute] runs a call and turns a thrown error into [null]; the new
    loading state is returned with the result.  The toast it shows is not
    part of the state and is left out. *)
Module useApi.

Definition execute {T : Type} (apiCall : Outcome T) : LoadingState * option T :=
  match apiCall with
  | Resolved result => ({| isLoading := false; error := None |}, Some result)
  | Rejected errorMsg =>
      ({| isLoading := false; error := Some errorMsg |}, None)
  end.

Definition transformData {Reply : Type}
    (post : string → TransformationRequest → Thrown + Reply)
    (request : TransformationRequest) : LoadingState * option Reply :=
  execute (ApiService.transformData post request).

Definition batchTransform {Reply : Type}
    (post : string → ApiService.BatchBody → Thrown + Reply)
    (requests : list TransformationRequest) : LoadingState * option Reply :=
  execute (ApiService.batchTransform post requests).

End useApi.

(** ** The application ([App], in [components/DataTable.tsx]) *)

Record AppState : Type := {
  dashboard : DashboardState;
  api_loading : LoadingState;
}.

(** The object [handleExecuteTransformation] posts: a copy of the
    parameters in which a truthy [pivot_columns] has been moved to
    [columns]. *)
Definition apiParameters (params : TransformationParameters)
  : TransformationParameters :=
  match params !! "pivot_columns" with
  | Some v =>
      if truthy v then delete "pivot_columns" (<["columns" := v]> params)
      else params
  | None => params
  end.

(** The request of [handleExecuteTransformation], or [None] when it
    returns before posting one. *)
Definition apiRequest (d : DashboardState) : option TransformationRequest :=
  if bool_decide (selectedTransformation d = "")
     || bool_decide (length (originalData d) = 0%nat)
  then None
  else Some {| data := originalData d;
               transformation_type := selectedTransformation d;
               parameters := apiParameters (st_parameters d) |}.

Section App.

Variable post : string → TransformationRequest → Thrown + TransformationResponse.

Definition handleExecuteTransformation (app : AppState) : AppState :=
  match apiRequest (dashboard app) with
  | None => app
  | Some request =>
      let '(loading', result) := useApi.transformData post request in
      match result with
      | Some result =>
          {| dashboard :=
               dashboardReducer (dashboard app)
                 (SET_TRANSFORMED_DATA (response_data result));
             api_loading := loading' |}
      | None => {| dashboard := dashboard app; api_loading := loading' |}
      end
  end.

End App.

Definition handleLoadSample (type : string) (app : AppState) : AppState :=
  let sampleData := generateSampleData type in
  {| dashboard :=
       dashboardReducer
         (dashboardReducer (dashboard app) (SET_ORIGINAL_DATA sampleData))
         (SET_TRANSFORMED_DATA sampleData);
     api_loading := api_loading app |}.

Definition handleReset (app : AppState) : AppState :=
  {| dashboard := dashboardReducer (dashboard app) RESET_STATE;
     api_loading := api_loading app |}.

(** The props [App] passes to [MetadataPanel] ([MetadataPanelProps]);
    the panel is rendered only for a non-empty transformed table. *)
Record MetadataPanelProps : Type := {
  panel_metadata : gmap string Json;
  processingTime : number;
  originalCount : nat;
  transformedCount : nat;
}.

Definition metadataPanel (d : DashboardState) : option MetadataPanelProps :=
  if bool_decide (0 < length (transformedData d))%nat then
    Some {| panel_metadata := ∅;
            processingTime := zero;
            originalCount := length (originalData d);
            transformedCount := length (transformedData d) |}
  else None.

(** ** The transformation engine

    The engine is the Django service behind [/api/v1/transform/] and
    [/api/v1/batch-transform/]; the repository holds its container setup
    and its README, not its code.  Every definition of this module is
    modelled from the specification (sections 3, 4 and 7), and says which
    part of the engine it stands for. *)

Module Engine.

Abbreviation Table := (list DataRecord).

(** Modelled from the spec: the error taxonomy of section 7. *)
Inductive EngineError : Type :=
  | ValidationError (reason : string)
  | ComputationError (reason : string).

(** Modelled from the spec: a call of the engine returns a value or
    fails as a whole with an error (section 4.5). *)
Inductive Result (A : Type) : Type :=
  | Ok (a : A)
  | Err (e : EngineError).
Arguments Ok {A} a.
Arguments Err {A} e.

Definition bind {A B : Type} (r : Result A) (f : A → Result B) : Result B :=
  match r with
  | Ok a => f a
  | Err e => Err e
  end.

#[global] Instance Result_bind : MBind Result := λ A B f r, bind r f.

Fixpoint traverse {A B : Type} (f : A → Result B) (l : list A)
  : Result (list B) :=
  match l with
  | [] => Ok []
  | a :: l' => b ← f a; bs ← traverse f l'; Ok (b :: bs)
  end.

(** Modelled from the spec: the statistics of section 4.2. *)
Inductive Statistic : Type :=
  | stat_sum | stat_mean | stat_count | stat_min | stat_max | stat_std.

(** Modelled from the spec: the engine's read of a column; a column a
    record lacks reads as null (section 3). *)
Definition cell (record : DataRecord) (column : string) : JsValue :=
  match get record column with
  | JsUndefined => JsNull
  | v => v
  end.

(** Modelled from the spec: the engine's test that a referenced column
    exists in a record (sections 4.2, 4.3). *)
Definition has_column (column : string) (record : DataRecord) : bool :=
  bool_decide (column ∈ Object_keys record).

Definition numeric (v : JsValue) : option number :=
  match v with
  | JsNumber n => Some n
  | _ => None
  end.

(** Modelled from the spec: the values a numeric statistic is taken
    over, the non-null numeric values of a column, top to bottom
    (sections 4.2, 4.3). *)
Definition numeric_values (column : string) (rows : Table) : list number :=
  omap (λ record, numeric (cell record column)) rows.

(** Modelled from the spec: what [count] counts, the non-null values of
    a column (section 4.2). *)
Definition non_null_count (column : string) (rows : Table) : nat :=
  length (filter (λ record, cell record column ≠ JsNull) rows).

(** *** Reducers (section 4.2) *)

(** Modelled from the spec: the reducer [sum]. *)
Definition total (xs : list number) : number := foldl Number.add zero xs.

(** Modelled from the spec: the reducer [min], by a scan that keeps the
    least value met so far. *)
Definition minimum (xs : list number) : number :=
  match xs with
  | [] => NaN
  | x :: rest => foldl (λ m y, if Number.lt y m then y else m) x rest
  end.

(** Modelled from the spec: the reducer [max], by a scan that keeps the
    greatest value met so far. *)
Definition maximum (xs : list number) : number :=
  match xs with
  | [] => NaN
  | x :: rest => foldl (λ m y, if Number.gt y m then y else m) x rest
  end.

Definition count_of (xs : list number) : number := of_Z (Z.of_nat (length xs)).

(** Modelled from the spec: the reducer [mean], the arithmetic mean. *)
Definition mean_of (xs : list number) : number :=
  Number.div (total xs) (count_of xs).

Definition square (x : number) : number := SFmul prec emax x x.

(** Modelled from the spec: the reducer [std], the sample standard
    deviation; the squared deviations are divided by [n - 1]. *)
Definition sample_std (xs : list number) : number :=
  let m := mean_of xs in
  SFsqrt prec emax
    (Number.div (total (map (λ x, square (Number.sub x m)) xs))
       (of_Z (Z.of_nat (length xs) - 1))).

(** Modelled from the spec: the reduction of one column of a bucket by
    one statistic (section 4.2).  [mean] and [std] have a null result
    when too few values contribute; [sum], [min] and [max] have none
    defined, and fail on a bucket without a numeric value (section 7,
    [ComputationError]). *)
Definition reduce (s : Statistic) (column : string) (rows : Table)
  : Result JsValue :=
  let xs := numeric_values column rows in
  match s, xs with
  | stat_count, _ => Ok (JsNumber (of_Z (Z.of_nat (non_null_count column rows))))
  | stat_mean, [] => Ok JsNull
  | stat_mean, _ => Ok (JsNumber (mean_of xs))
  | stat_std, ([] | [_]) => Ok JsNull
  | stat_std, _ => Ok (JsNumber (sample_std xs))
  | _, [] => Err (ComputationError column)
  | stat_sum, _ => Ok (JsNumber (total xs))
  | stat_min, _ => Ok (JsNumber (minimum xs))
  | stat_max, _ => Ok (JsNumber (maximum xs))
  end.

(** *** Aggregator (section 4.2) *)

Abbreviation GroupKey := (list JsValue).

(** Modelled from the spec: the group key of a record, the tuple of its
    values in the group-by columns (section 4.2). *)
Definition group_key (group_by : list string) (record : DataRecord) : GroupKey :=
  map (cell record) group_by.

(** Modelled from the spec: the bucketing step of the Aggregator.
    Buckets are kept in the order in which their keys were first seen;
    a record joins the bucket of its key, or opens a new last bucket. *)
Fixpoint add_to_bucket (k : GroupKey) (record : DataRecord)
    (buckets : list (GroupKey * Table)) : list (GroupKey * Table) :=
  match buckets with
  | [] => [(k, [record])]
  | (k', rows) :: rest =>
      if bool_decide (k' = k) then (k', rows ++ [record]) :: rest
      else (k', rows) :: add_to_bucket k record rest
  end.

(** Modelled from the spec: the partition of a table into buckets, by
    a scan from top to bottom (section 4.2). *)
Definition partition (group_by : list string) (table : Table)
  : list (GroupKey * Table) :=
  foldl (λ buckets record,
           add_to_bucket (group_key group_by record) record buckets)
    [] table.

(** Modelled from the spec: the output row of a bucket, the group-by
    columns, then one column per aggregation under the name of the
    column it reduces (section 4.2). *)
Definition bucket_row (group_by : list string)
    (aggregations : list (string * Statistic))
    (bucket : GroupKey * Table) : Result DataRecord :=
  cols ← traverse (λ '(column, s),
                     v ← reduce s column bucket.2; Ok (column, v))
           aggregations;
  Ok (zip group_by bucket.1 ++ cols).

(** Modelled from the spec: the Aggregator's [aggregate] (section 4.2),
    with its two validation failures. *)
Definition aggregate (table : Table) (group_by : list string)
    (aggregations : list (string * Statistic)) : Result Table :=
  if bool_decide (group_by = []) then
    Err (ValidationError "group_by is empty")
  else if negb (forallb (λ '(column, _), existsb (has_column column) table)
                  aggregations) then
    Err (ValidationError "aggregation column not in the data")
  else traverse (bucket_row group_by aggregations) (partition group_by table).

(** *** Normalizer (section 4.3)

    A method turns the numeric values of a column into the rescaling of
    one value.  The statistics come from the table as it was given, so
    they are the same for every row. *)

Abbreviation Method := (list number → number → number).

(** Modelled from the spec: the method [min_max] of the Normalizer. *)
Definition min_max : Method := λ xs x,
  let lo := minimum xs in
  let hi := maximum xs in
  if Number.eqb hi lo then zero
  else Number.div (Number.sub x lo) (Number.sub hi lo).

(** Modelled from the spec: the Normalizer's rewrite of one record;
    numeric values of the listed columns are rescaled, everything else
    passes through (section 4.3). *)
Definition normalize_record (table : Table) (columns : list string)
    (method : Method) (record : DataRecord) : DataRecord :=
  map (λ '(k, v),
         match v with
         | JsNumber x =>
             if bool_decide (k ∈ columns)
             then (k, JsNumber (method (numeric_values k table) x))
             else (k, v)
         | _ => (k, v)
         end) record.

(** Modelled from the spec: the Normalizer's [normalize] (section 4.3),
    which fails when a listed column is missing or has no numeric
    value. *)
Definition normalize (table : Table) (columns : list string) (method : Method)
  : Result Table :=
  if negb (forallb (λ column,
                      existsb (has_column column) table
                      && negb (bool_decide (numeric_values column table = [])))
             columns) then
    Err (ValidationError "column missing or without numeric values")
  else Ok (map (normalize_record table columns method) table).

(** *** Dispatcher (section 4.5) and batch runner (section 4.6) *)

(** Modelled from the spec: the [TransformationResult] of section 3. *)
Record TransformationResult : Type := {
  result_data : Table;
  result_metadata : gmap string Json;
  result_time_ms : number;
}.

(** Modelled from the spec: a row counter of the metadata. *)
Definition row_count (table : Table) : Json := JNum (Z.of_nat (length table)).

(** Modelled from the spec: the Dispatcher's result envelope (section
    4.5), with the row counts of the request and of the output; a filter
    reports its output count as [filtered_rows] too. *)
Definition wrap (request : TransformationRequest) (output : Table)
    (elapsed : number) : TransformationResult :=
  let counts : gmap string Json :=
    <["original_rows" := row_count (data request)]>
      (<["transformed_rows" := row_count output]> ∅) in
  {| result_data := output;
     result_metadata :=
       if bool_decide (transformation_type request = "filter")
       then <["filtered_rows" := row_count output]> counts
       else counts;
     result_time_ms := elapsed |}.

Section Dispatcher.

(** The validation of the tag and of the parameters, followed by the
    component the tag routes to (sections 4.1 to 4.4); the dispatcher is
    stated for any such function. *)
Variable component :
  string → TransformationParameters → Table → Result Table.

(** Modelled from the spec: the Dispatcher's [execute] (section 4.5).
    [elapsed] is the wall-clock time measured around the component
    call.  An empty table is answered with an empty table and zeroed
    counters, without a component call. *)
Definition execute (request : TransformationRequest) (elapsed : number)
  : Result TransformationResult :=
  match data request with
  | [] => Ok (wrap request [] zero)
  | _ =>
      output ← component (transformation_type request)
                 (parameters request) (data request);
      Ok (wrap request output elapsed)
  end.

(** Modelled from the spec: the Batch Runner (section 4.6).  Requests
    are run one after the other, each through [execute]; what a request
    fails with becomes the entry at its index.  [clock i] is the time
    measured for the request at index [i]. *)
Fixpoint batch_from (i : nat) (clock : nat → number)
    (requests : list TransformationRequest)
  : list (Result TransformationResult) :=
  match requests with
  | [] => []
  | request :: rest =>
      execute request (clock i) :: batch_from (S i) clock rest
  end.

(** Modelled from the spec: the Batch Runner's [batch_execute]. *)
Definition batch_execute (clock : nat → number)
    (requests : list TransformationRequest)
  : list (Result TransformationResult) :=
  batch_from 0 clock requests.

End Dispatcher.

End Engine.

(** ** What the specification calls things

    Definitions that follow the specification's wording, to state its
    sentences against the code. *)

(** The schema of a table (section 3): the set of column names that
    appear in any of its records. *)
Definition table_columns (table : list DataRecord) : gset string :=
  ⋃ (map (λ record, list_to_set (Object_keys record)) table).

(** A text is numeric when, white space at its ends apart, the whole of
    it is a decimal literal: digits with an optional sign, fraction and
    exponent, or a signed [Infinity]. *)
Definition blank (s : string) : bool := bool_decide (trim_start s = "").

Definition skip_digits (s : string) : Z * string :=
  let '(_, count, rest) := read_digits s 0 0 in (count, rest).

Definition skip_exponent (s : string) : string :=
  match s with
  | String c r =>
      if bool_decide (c = "e"%char) || bool_decide (c = "E"%char) then
        let r' :=
          match r with
          | String "+"%char r' => r'
          | String "-"%char r' => r'
          | _ => r
          end in
        let '(cnt, rest) := skip_digits r' in
        if cnt =? 0 then s else rest
      else s
  | EmptyString => s
  end.

Definition numeric_text (s : string) : bool :=
  let t := trim_start s in
  let u :=
    match t with
    | String "+"%char r => r
    | String "-"%char r => r
    | _ => t
    end in
  if String.prefix "Infinity" u then blank (Number.str_drop 8 u)
  else
    let '(ic, r1) := skip_digits u in
    match r1 with
    | String "."%char r2 =>
        let '(fc, r3) := skip_digits r2 in
        negb ((ic =? 0) && (fc =? 0)) && blank (skip_exponent r3)
    | _ => negb (ic =? 0) && blank (skip_exponent r1)
    end.

(** The distinct elements of a list in the order in which a scan from
    the front first meets them. *)
Fixpoint distinct_from {A : Type} `{EqDecision A} (seen l : list A) : list A :=
  match l with
  | [] => []
  | x :: l' =>
      if decide (x ∈ seen) then distinct_from seen l'
      else x :: distinct_from (seen ++ [x]) l'
  end.

Definition first_seen {A : Type} `{EqDecision A} (l : list A) : list A :=
  distinct_from [] l.

(** ** Concrete tables, states and requests

    The inputs at which the statements of part II are evaluated. *)

Import Engine.

(** A table in which the second record has a column the first lacks. *)
Definition ragged_table : list DataRecord :=
  [ [("a", JsNumber (of_Z 1))];
    [("a", JsNumber (of_Z 1)); ("b", JsNumber (of_Z 2))] ].

Definition ragged_state : DashboardState := {|
  originalData := ragged_table;
  transformedData := ragged_table;
  selectedTransformation := "";
  st_parameters := ∅;
  loading := {| isLoading := false; error := None |};
  sortConfig := None;
  filters := [];
|}.

Definition sales_20 : DataRecord := [("sales", JsNumber (of_Z 20))].

Definition greater_12abc : FilterConfig :=
  {| column := "sales"; value := "12abc"; operator := "greater" |}.

Definition alice : DataRecord := [("name", JsString "Alice")].

Definition contains_alice : FilterConfig :=
  {| column := "name"; value := "alice"; operator := "contains" |}.

(** The dashboard after: load the sales sample, choose the pivot
    transformation, pick [product] as pivot column, then put the select
    back on its placeholder (whose value is the empty string). *)
Definition pivot_column_cleared : DashboardState :=
  foldl dashboardReducer initialState
    [ SET_ORIGINAL_DATA (generateSampleData "sales");
      SET_TRANSFORMED_DATA (generateSampleData "sales");
      SET_TRANSFORMATION "pivot";
      SET_PARAMETERS {[ "index" := JStr "region" ]};
      SET_PARAMETERS {[ "index" := JStr "region";
                        "pivot_columns" := JStr "product" ]};
      SET_PARAMETERS {[ "index" := JStr "region";
                        "pivot_columns" := JStr "" ]} ].

Definition pivot_column_chosen : AppState := {|
  dashboard :=
    foldl dashboardReducer initialState
      [ SET_ORIGINAL_DATA (generateSampleData "sales");
        SET_TRANSFORMED_DATA (generateSampleData "sales");
        SET_TRANSFORMATION "pivot";
        SET_PARAMETERS {[ "index" := JStr "region";
                          "pivot_columns" := JStr "product" ]} ];
  api_loading := {| isLoading := false; error := None |};
|}.

Definition region_sales (region : string) (sales : Z) : DataRecord :=
  [("region", JsString region); ("sales", JsNumber (of_Z sales))].

(** The table of scenario 1. *)
Definition scenario1_table : Table :=
  [ region_sales "North" 100; region_sales "North" 150;
    region_sales "South" 200; region_sales "South" 120 ].

(** The table of the README's aggregate example, which has a [product]
    column besides. *)
Definition readme_aggregate_table : Table :=
  [ region_sales "North" 100 ++ [("product", JsString "A")];
    region_sales "North" 150 ++ [("product", JsString "B")];
    region_sales "South" 200 ++ [("product", JsString "A")];
    region_sales "South" 120 ++ [("product", JsString "B")] ].

Definition x_row (x : number) : DataRecord := [("x", JsNumber x)].

(** A component that knows the aggregation of sales by region only. *)
Definition sales_by_region_component (type : string)
    (params : TransformationParameters) (table : Table) : Result Table :=
  if bool_decide (type = "aggregate")
  then aggregate table ["region"] [("sales", stat_sum)]
  else Err (ValidationError "unknown transformation type").

Definition unknown_request : TransformationRequest :=
  {| data := scenario1_table; transformation_type := "transpose";
     parameters := ∅ |}.

Definition aggregate_request : TransformationRequest :=
  {| data := scenario1_table; transformation_type := "aggregate";
     parameters := ∅ |}.

(** ** More of the client

    The parts of the cited files that stand around the sorting, the
    filtering and the request: the table view, the filter bar, the
    parameter inputs and the filter banner. *)

(** *** The [DataTable] component ([components/DataTable.tsx]) *)

(** [column.replace(/_/g, " ")] *)
Fixpoint replace_underscores (s : string) : string :=
  match s with
  | EmptyString => EmptyString
  | String c s' =>
      String (if bool_decide (c = "_"%char) then " "%char else c)
        (replace_underscores s')
  end.

(** What the component renders: the loading skeleton, the empty notice,
    or the grid with its header, its rows of cells and its footer. *)
Inductive TableView : Type :=
  | Skeleton
  | NoData
  | Grid (header : list string) (rows : list (list string)) (footer : string).

Section DataTable.

(** [Number.prototype.toLocaleString]: the grouping and the digits are the
    host locale's. *)
Variable toLocaleString : number → string.

Definition formatCellValue (v : JsValue) : string :=
  match v with
  | JsNull | JsUndefined => "-"
  | JsNumber n => toLocaleString n
  | JsBoolean b => if b then "Yes" else "No"
  | JsString s => s
  end.

Definition DataTable (data : list DataRecord) (isLoading : bool) : TableView :=
  if isLoading then Skeleton
  else match data with
       | [] => NoData
       | first :: _ =>
           let columns := Object_keys first in
           Grid (replace_underscores <$> columns)
             ((λ row, (λ c, formatCellValue (get row c)) <$> columns) <$> data)
             ("Showing " +:+ pretty (length data) +:+ " "
              +:+ (if bool_decide (length data = 1%nat)
                   then "record" else "records"))
       end.

End DataTable.

(** *** The filter banner of [App]

    [Filtered: n of m records], shown when the two lengths differ. *)
Definition filteredBanner (localeCompare : string → string → number)
    (d : DashboardState) : option (nat * nat) :=
  if bool_decide (length (displayData localeCompare d)
                  ≠ length (transformedData d))
  then Some (length (displayData localeCompare d), length (transformedData d))
  else None.

(** *** The [FilterBar] component ([components/FilterBar.tsx])

    [newFilter] is the filter being typed; every change of an input sets
    one field of it, so all three fields are always present. *)
Record FilterDraft : Type := {
  draft_column : string;
  draft_operator : string;
  draft_value : string;
}.

Definition emptyDraft : FilterDraft :=
  {| draft_column := ""; draft_operator := "contains"; draft_value := "" |}.

(** [handleAddFilter]: the draft is handed to [onAddFilter] (the
    dashboard's [addFilter]) and reset, when its column and its value
    are truthy; nothing happens otherwise. *)
Definition handleAddFilter (newFilter : FilterDraft) (d : DashboardState)
  : FilterDraft * DashboardState :=
  if negb (bool_decide (draft_column newFilter = ""))
     && negb (bool_decide (draft_value newFilter = ""))
  then (emptyDraft,
        dashboardReducer d
          (ADD_FILTER {| column := draft_column newFilter;
                         value := draft_value newFilter;
                         operator := draft_operator newFilter |}))
  else (newFilter, d).

(** The callback of [REMOVE_FILTER] as the reducer writes it:
    [filters.filter((_, index) => index !== payload)]. *)
Definition reject_index {A : Type} (payload : nat) (l : list A) : list A :=
  (filter (λ p : nat * A, p.1 ≠ payload) (imap pair l)).*2.

(** *** The parameter inputs ([components/TransformationPanel.tsx]) *)

(** [handleParamChange]: the object handed to [onParametersChange],
    [{...localParams, ...newParams}]. *)
Definition handleParamChange (localParams newParams : TransformationParameters)
  : TransformationParameters :=
  newParams ∪ localParams.

(** Objects as [Json] holds them: the property list, where an assignment
    to a present key keeps its place and a new key goes last. *)
Fixpoint object_get (fields : list (string * Json)) (k : string) : option Json :=
  match fields with
  | [] => None
  | (k', v) :: rest => if bool_decide (k' = k) then Some v else object_get rest k
  end.

Fixpoint object_set (fields : list (string * Json)) (k : string) (v : Json)
  : list (string * Json) :=
  match fields with
  | [] => [(k, v)]
  | (k', v') :: rest =>
      if bool_decide (k' = k) then (k, v) :: rest
      else (k', v') :: object_set rest k v
  end.

Fixpoint object_delete (fields : list (string * Json)) (k : string)
  : list (string * Json) :=
  match fields with
  | [] => []
  | (k', v') :: rest =>
      if bool_decide (k' = k) then object_delete rest k
      else (k', v') :: object_delete rest k
  end.

(** The [onChange] of an aggregation select: a copy of
    [localParams.aggregations] in which the column is given the chosen
    function, or is deleted when the placeholder (value [""]) is chosen;
    the copy is the new [aggregations]. *)
Definition aggregations_of (localParams : TransformationParameters)
  : list (string * Json) :=
  match localParams !! "aggregations" with
  | Some (JObject fields) => fields
  | _ => []
  end.

Definition aggregationChange (localParams : TransformationParameters)
    (col selected : string) : TransformationParameters :=
  let aggs := aggregations_of localParams in
  let aggs' :=
    if negb (bool_decide (selected = "")) then object_set aggs col (JStr selected)
    else object_delete aggs col in
  handleParamChange localParams {[ "aggregations" := JObject aggs' ]}.

(** *** The filter callback on run-time values

    [FilterConfig] is a compile-time type: at run time [filter.value] is
    whatever the object holds.  The callback evaluates
    [filter.value.toLowerCase()] before it looks at the operator, and that
    call throws a [TypeError] unless the value is a string.  Nothing else
    in the callback can throw: the property read on a record, [String],
    [typeof], [includes], [parseFloat] and the two comparisons are
    defined on every value. *)
Definition runFilter (record : DataRecord) (column : string) (value : JsValue)
    (operator : string) : Outcome bool :=
  let v := get record column in
  match value with
  | JsString text =>
      let filterValue := toLowerCase text in
      Resolved
        (if bool_decide (operator = "contains") then
           includes (toLowerCase (ToString v)) filterValue
         else if bool_decide (operator = "equals") then
           bool_decide (toLowerCase (ToString v) = filterValue)
         else if bool_decide (operator = "greater") then
           match v with
           | JsNumber n => Number.gt n (parseFloat text)
           | _ => false
           end
         else if bool_decide (operator = "less") then
           match v with
           | JsNumber n => Number.lt n (parseFloat text)
           | _ => false
           end
         else true)
  | JsUndefined | JsNull =>
      Rejected "TypeError: Cannot read properties (reading 'toLowerCase')"
  | JsBoolean _ | JsNumber _ =>
      Rejected "TypeError: filter.value.toLowerCase is not a function"
  end.

(** A run of decimal digits, and a text whose first character would
    carry a decimal literal on: a digit, the point, or the [e] of an
    exponent. *)
Fixpoint digits_only (s : string) : bool :=
  match s with
  | EmptyString => true
  | String c s' => is_digit c && digits_only s'
  end.

Definition continues_number (s : string) : bool :=
  match s with
  | EmptyString => false
  | String c _ =>
      is_digit c || bool_decide (c = "."%char)
      || bool_decide (c = "e"%char) || bool_decide (c = "E"%char)
  end.

(** A collation that tells no two strings apart, for the closed
    instances of the theorems. *)
Definition flat_collation (a b : string) : number := zero.

Definition users_by_absent_column : DashboardState :=
  dashboardReducer
    (dashboardReducer initialState
       (SET_TRANSFORMED_DATA (generateSampleData "users")))
    (SET_SORT (Some {| key := "salary"; direction := asc |})).

(* ===================================================================== *)
(** * Part II: theorems                                                  *)
(* ===================================================================== *)

(** ** Strings *)

Lemma prefix_app (t s : string) :
  String.prefix t s = true ↔ ∃ b, s = t +:+ b.
Proof.
  revert s. induction t as [|c t IH]; intros s.
  - destruct s; simpl; split; eauto.
  - destruct s as [|d s]; simpl.
    + split; [done | by intros [b ?]].
    + destruct (Ascii.ascii_dec c d) as [->|Hne].
      * rewrite IH. split; intros [b Hb]; exists b; [by rewrite Hb | by inversion Hb].
      * split; [done | intros [b Hb]; inversion Hb; congruence].
Qed.

Lemma includes_unfold (s t : string) :
  includes s t =
    if String.prefix t s then true
    else match s with
         | EmptyString => false
         | String _ s' => includes s' t
         end.
Proof. by destruct s. Qed.

(** [includes] is the substring test. *)
Lemma includes_spec (s t : string) :
  includes s t = true ↔ ∃ a b, s = a +:+ t +:+ b.
Proof.
  induction s as [|c s IH]; rewrite includes_unfold.
  - destruct (String.prefix t "") eqn:Hp.
    + apply prefix_app in Hp as [b Hb]. split; [|done]. intros _. by exists "", b.
    + split; [done|]. intros ([|??] & b & Hb); simpl in Hb; [|done].
      assert (String.prefix t "" = true) by (apply prefix_app; eauto). congruence.
  - destruct (String.prefix t (String c s)) eqn:Hp.
    + apply prefix_app in Hp as [b Hb]. split; [|done]. intros _. by exists "", b.
    + rewrite IH. split.
      * intros (a & b & ->). by exists (String c a), b.
      * intros ([|d a] & b & Hb); simpl in Hb.
        -- assert (String.prefix t (String c s) = true) by (apply prefix_app; eauto).
           congruence.
        -- inversion Hb; subst. by exists a, b.
Qed.

(** ** Numbers *)

Lemma gt_NaN_r (x : number) : Number.gt x NaN = false.
Proof. by destruct x. Qed.

Lemma lt_NaN_r (x : number) : Number.lt x NaN = false.
Proof. by destruct x as [| | |[] ? ?]. Qed.

Lemma gt_NaN_l (x : number) : Number.gt NaN x = false.
Proof. by destruct x as [| | |[] ? ?]. Qed.

Lemma lt_NaN_l (x : number) : Number.lt NaN x = false.
Proof. by destruct x. Qed.

(** ** Sorting *)

Lemma sort_insert_perm {A : Type} (cmp : A → A → number) (x : A) (l : list A) :
  sort_insert cmp x l ≡ₚ x :: l.
Proof.
  induction l as [|y l IH]; simpl; [done|].
  destruct (Number.gt (cmp x y) zero); [|done].
  rewrite IH. apply Permutation_swap.
Qed.

(** The model of [Array.prototype.sort] rearranges, and nothing more. *)
Lemma Array_sort_perm {A : Type} (cmp : A → A → number) (l : list A) :
  Array_sort cmp l ≡ₚ l.
Proof.
  induction l as [|x l IH]; simpl; [done|].
  by rewrite sort_insert_perm, IH.
Qed.

(** ** Client-side filtering *)

Lemma filter_all {A : Type} (P : A → Prop) `{!∀ x, Decision (P x)} (l : list A) :
  (∀ x, P x) → filter P l = l.
Proof.
  intros HP. induction l as [|x l IH]; [done|].
  by rewrite filter_cons_True, IH.
Qed.

(** The special case for an empty filter list is the general case. *)
Lemma filteredAndSortedData_filter localeCompare (state : DashboardState) :
  filteredAndSortedData localeCompare state =
    filter (λ record, forallb (matchesFilter record) (filters state))
      (sortedData localeCompare state).
Proof.
  unfold filteredAndSortedData. case_bool_decide as Hlen; [|done].
  destruct (filters state); [|done].
  by rewrite filter_all.
Qed.

(** C1: the client-side filter ([filteredAndSortedData]) returns a
    subsequence of the list it filters, so it is no longer than that list
    and keeps the relative order; every record it returns satisfies every
    filter of the list (the filters are composed with AND); and it is
    [Array.filter] over [filters.every], also for an empty filter list.
    The list it filters is [sortedData], a rearrangement of the
    transformed table, so the output is no longer than the table. *)
Theorem C1_filter_subsequence_and_sound
    (localeCompare : string → string → number) (state : DashboardState) :
  filteredAndSortedData localeCompare state
    `sublist_of` sortedData localeCompare state
  ∧ (length (filteredAndSortedData localeCompare state)
     ≤ length (sortedData localeCompare state))%nat
  ∧ (length (filteredAndSortedData localeCompare state)
     ≤ length (transformedData state))%nat
  ∧ Forall (λ record,
              Forall (λ f, matchesFilter record f = true) (filters state))
      (filteredAndSortedData localeCompare state)
  ∧ filteredAndSortedData localeCompare state =
      filter (λ record, forallb (matchesFilter record) (filters state))
        (sortedData localeCompare state).
Proof.
  rewrite filteredAndSortedData_filter.
  assert (Hperm : sortedData localeCompare state ≡ₚ transformedData state).
  { unfold sortedData. destruct (sortConfig state); [apply Array_sort_perm | done]. }
  split_and!.
  - apply sublist_filter.
  - apply length_filter.
  - rewrite <- Hperm. apply length_filter.
  - apply Forall_forall. intros record [Hall _]%list_elem_of_filter.
    apply Forall_forall. intros f Hf.
    apply Is_true_true in Hall. rewrite forallb_forall in Hall.
    apply Hall. by apply list_elem_of_In.
  - done.
Qed.

(** ** Client-side sorting *)

(** C10: [sortedData] is a permutation of [transformedData] (the same
    records with the same multiplicities), and without a sort
    configuration it is [transformedData] itself. *)
Theorem C10_sortedData_permutation
    (localeCompare : string → string → number) (state : DashboardState) :
  sortedData localeCompare state ≡ₚ transformedData state
  ∧ (sortConfig state = None →
     sortedData localeCompare state = transformedData state).
Proof.
  unfold sortedData. split.
  - destruct (sortConfig state); [apply Array_sort_perm | done].
  - by intros ->.
Qed.

(** Without a sort configuration, at the ragged table. *)
Lemma C10_unsorted_witness :
  sortedData (λ _ _, zero) ragged_state = transformedData ragged_state.
Proof.
  exact (proj2 (C10_sortedData_permutation (λ _ _, zero) ragged_state) eq_refl).
Defined.

(** ** Column discovery *)

Lemma elem_of_table_columns (table : list DataRecord) (c : string) :
  c ∈ table_columns table ↔ ∃ record, record ∈ table ∧ c ∈ Object_keys record.
Proof.
  unfold table_columns. rewrite elem_of_union_list. split.
  - intros (X & HX & Hc). apply list_elem_of_fmap in HX as (record & -> & Hr).
    exists record. split; [done|]. by apply elem_of_list_to_set in Hc.
  - intros (record & Hr & Hc). exists (list_to_set (Object_keys record)).
    split; [|by apply elem_of_list_to_set].
    apply list_elem_of_fmap. by exists record.
Qed.

(** C5, as stated, fails: column [b] appears in the table, and numbers
    stand under it, but [availableColumns] does not report it. *)
Lemma C5_counterexample :
  "b" ∈ table_columns (transformedData ragged_state)
  ∧ availableColumns ragged_state = ["a"]
  ∧ "b" ∉ availableColumns ragged_state.
Proof.
  split_and!.
  - apply elem_of_table_columns.
    exists [("a", JsNumber (of_Z 1)); ("b", JsNumber (of_Z 2))].
    unfold ragged_state, ragged_table; simpl.
    split; rewrite !elem_of_cons; auto.
  - done.
  - by intros [= ]%list_elem_of_singleton.
Qed.

(** C5, amended: [availableColumns] is the key list of the first record
    of [transformedData], empty for an empty table; its columns all
    appear in the table, and it has every column of the table when no
    record has a key that the first record lacks.  [numericColumns] is
    exactly the keys of the first record of [originalData] whose value in
    that record is of type number, in key order. *)
Theorem C5_columns_from_first_record (state : DashboardState) :
  availableColumns state = default [] (Object_keys <$> head (transformedData state))
  ∧ (∀ c, c ∈ availableColumns state → c ∈ table_columns (transformedData state))
  ∧ ((∀ first record, head (transformedData state) = Some first →
        record ∈ transformedData state →
        Object_keys record ⊆ Object_keys first) →
     ∀ c, c ∈ availableColumns state ↔ c ∈ table_columns (transformedData state))
  ∧ (∀ c, c ∈ numericColumns state ↔
       ∃ first, head (originalData state) = Some first
                ∧ c ∈ Object_keys first
                ∧ ∃ n, get first c = JsNumber n)
  ∧ numericColumns state `sublist_of`
      default [] (Object_keys <$> head (originalData state)).
Proof.
  assert (Hsub : ∀ c, c ∈ availableColumns state →
                      c ∈ table_columns (transformedData state)).
  { intros c Hc. apply elem_of_table_columns. unfold availableColumns in Hc.
    destruct (transformedData state) as [|first rest]; [by apply elem_of_nil in Hc|].
    exists first. split; [left | done]. }
  split_and!.
  - unfold availableColumns. by destruct (transformedData state).
  - done.
  - intros Huniform c. split; [apply Hsub|].
    intros (record & Hr & Hc)%elem_of_table_columns.
    unfold availableColumns.
    destruct (transformedData state) as [|first rest] eqn:Ht; [by apply elem_of_nil in Hr|].
    by apply (Huniform first record).
  - intros c. unfold numericColumns.
    destruct (originalData state) as [|first rest]; simpl.
    + split; [by intros ?%elem_of_nil | by intros (? & ? & _)].
    + rewrite list_elem_of_filter. split.
      * intros [Hty Hc]. exists first. split_and!; [done..|].
        destruct (get first c); try done. by eexists.
      * intros (? & [= <-] & Hc & n & Hn). by rewrite Hn.
  - unfold numericColumns. destruct (originalData state); simpl; [done|].
    apply sublist_filter.
Qed.

(** The amended statement at a table whose records share their keys. *)
Lemma C5_columns_witness :
  "product" ∈ availableColumns
                (dashboard (handleLoadSample "sales"
                   {| dashboard := initialState;
                      api_loading := {| isLoading := false; error := None |} |}))
  ↔ "product" ∈ table_columns (generateSampleData "sales").
Proof.
  destruct (C5_columns_from_first_record
              (dashboard (handleLoadSample "sales"
                 {| dashboard := initialState;
                    api_loading := {| isLoading := false; error := None |} |})))
    as (_ & _ & Huniform & _).
  apply Huniform.
  intros first record [= <-] Hr. simpl in Hr.
  repeat (apply elem_of_cons in Hr as [-> | Hr]; [done|]).
  by apply elem_of_nil in Hr.
Defined.

(** ** Filter conditions *)

(** C6, as stated, fails: the condition value [12abc] is not numeric,
    but [parseFloat] reads the number 12 off its front, and the record
    with [sales = 20] passes the filter. *)
Lemma C6_counterexample :
  numeric_text (value greater_12abc) = false
  ∧ parseFloat (value greater_12abc) = of_Z 12
  ∧ matchesFilter sales_20 greater_12abc = true.
Proof. by vm_compute. Qed.

(** [parseFloat] reads a number off the front of a text and ignores
    what follows it. *)
Lemma read_digits_app (ds rest : string) (acc count : Z) :
  digits_only ds = true → continues_number rest = false →
  read_digits (ds +:+ rest) acc count =
    (let '(v, n, _) := read_digits ds acc count in (v, n, rest)).
Proof.
  revert acc count. induction ds as [|c ds IH]; intros acc count Hds Hrest.
  - destruct rest as [|d rest]; [done|].
    cbn [continues_number] in Hrest.
    apply orb_false_elim in Hrest as [Hrest _].
    apply orb_false_elim in Hrest as [Hrest _].
    apply orb_false_elim in Hrest as [Hd _].
    change ("" +:+ String d rest) with (String d rest).
    cbn [read_digits]. by rewrite Hd.
  - cbn in Hds. apply andb_prop in Hds as [Hc Hds].
    change (String c ds +:+ rest) with (String c (ds +:+ rest)).
    cbn [read_digits]. rewrite Hc. by apply IH.
Qed.

Lemma read_digits_all (ds : string) (acc count : Z) :
  digits_only ds = true →
  ∃ v, read_digits ds acc count = (v, count + Z.of_nat (String.length ds), "").
Proof.
  revert acc count. induction ds as [|c ds IH]; intros acc count Hds.
  - exists acc. cbn. by rewrite Z.add_0_r.
  - cbn in Hds. apply andb_prop in Hds as [Hc Hds].
    cbn [read_digits]. rewrite Hc.
    destruct (IH (10 * acc + digit_val c) (count + 1) Hds) as [v Hv].
    exists v. rewrite Hv. f_equal. f_equal. cbn [String.length]. lia.
Qed.

(** A text that starts with a digit has no white space or sign to drop
    and is not [Infinity]. *)
Lemma parseFloat_digit_start (c : ascii) (s : string) :
  is_digit c = true →
  parseFloat (String c s) =
    (let '(ip, ic, r1) := read_digits (String c s) 0 0 in
     match r1 with
     | String "."%char r2 =>
         let '(fp, fc, r3) := read_digits r2 ip 0 in
         if (ic =? 0) && (fc =? 0) then NaN
         else of_decimal false fp (read_exponent r3 - fc)
     | _ => if ic =? 0 then NaN else of_decimal false ip (read_exponent r1)
     end).
Proof.
  intros Hc.
  destruct c as [[] [] [] [] [] [] [] []]; try discriminate Hc; reflexivity.
Qed.

Lemma tail_not_point {A : Type} (rest : string) (f : string → A) (d : A) :
  continues_number rest = false →
  match rest with
  | String "."%char r2 => f r2
  | _ => d
  end = d.
Proof.
  destruct rest as [|c rest]; [done|]. intros H.
  destruct c as [[] [] [] [] [] [] [] []]; try reflexivity; discriminate H.
Qed.

Lemma read_exponent_none (rest : string) :
  continues_number rest = false → read_exponent rest = 0.
Proof.
  destruct rest as [|c rest]; [done|]. cbn. intros H.
  apply orb_false_elim in H as [H He2]. apply orb_false_elim in H as [H He1].
  by rewrite He1, He2.
Qed.

Lemma parseFloat_digits_prefix (digits rest : string) :
  digits ≠ "" → digits_only digits = true → continues_number rest = false →
  parseFloat (digits +:+ rest) = parseFloat digits.
Proof.
  intros Hne Hds Hrest. destruct digits as [|c ds]; [done|].
  assert (Hc : is_digit c = true)
    by (cbn in Hds; by apply andb_prop in Hds as [? _]).
  change (String c ds +:+ rest) with (String c (ds +:+ rest)).
  rewrite !parseFloat_digit_start by done.
  change (String c (ds +:+ rest)) with (String c ds +:+ rest).
  rewrite read_digits_app by done.
  destruct (read_digits_all (String c ds) 0 0 Hds) as [v ->].
  cbn [String.length].
  rewrite (tail_not_point rest _ _ Hrest). cbn -[of_decimal Z.eqb Z.of_nat].
  by rewrite (read_exponent_none rest Hrest).
Qed.

(** The ordering branches of the callback. *)
Lemma matchesFilter_greater (record : DataRecord) (filter : FilterConfig) :
  operator filter = "greater" →
  matchesFilter record filter =
    match get record (column filter) with
    | JsNumber n => Number.gt n (parseFloat (value filter))
    | _ => false
    end.
Proof. intros Hop. unfold matchesFilter. by rewrite Hop. Qed.

Lemma matchesFilter_less (record : DataRecord) (filter : FilterConfig) :
  operator filter = "less" →
  matchesFilter record filter =
    match get record (column filter) with
    | JsNumber n => Number.lt n (parseFloat (value filter))
    | _ => false
    end.
Proof. intros Hop. unfold matchesFilter. by rewrite Hop. Qed.

(** The call [filter.value.toLowerCase()] is where the callback throws,
    when the value is not a string. *)
Lemma runFilter_needs_text (record : DataRecord) (column : string)
    (value : JsValue) (operator : string) :
  typeof value ≠ "string" →
  ∃ message, runFilter record column value operator = Rejected message.
Proof. destruct value; intros Hty; try done; by eexists. Qed.

(** C6, amended: a [greater] or [less] filter is true exactly when the
    field value is of type number and is greater, respectively less, than
    [parseFloat] of the condition value.  So it evaluates to false when
    the field value is not of type number, or when the condition value has
    no decimal literal at its front and [parseFloat] yields [NaN]; and a
    condition value that only starts with a number (digits, then text
    that cannot carry the number on) is compared by that number: the
    filter gives what it gives for the digits alone.  The evaluation of a
    filter on a record never raises and yields a boolean. *)
Theorem C6_ordering_by_parsed_number :
  (∀ record filter,
     operator filter = "greater" →
     matchesFilter record filter = true ↔
       ∃ n, get record (column filter) = JsNumber n
            ∧ Number.gt n (parseFloat (value filter)) = true)
  ∧ (∀ record filter,
       operator filter = "less" →
       matchesFilter record filter = true ↔
         ∃ n, get record (column filter) = JsNumber n
              ∧ Number.lt n (parseFloat (value filter)) = true)
  ∧ (∀ record filter,
       operator filter = "greater" ∨ operator filter = "less" →
       typeof (get record (column filter)) ≠ "number"
       ∨ parseFloat (value filter) = NaN →
       matchesFilter record filter = false)
  ∧ (∀ record col op digits rest,
       op = "greater" ∨ op = "less" →
       digits ≠ "" → digits_only digits = true →
       continues_number rest = false →
       matchesFilter record
         {| column := col; value := digits +:+ rest; operator := op |}
       = matchesFilter record
           {| column := col; value := digits; operator := op |})
  ∧ (∀ record filter,
       runFilter record (column filter) (JsString (value filter))
         (operator filter)
       = Resolved (matchesFilter record filter)).
Proof.
  split_and!.
  - intros record filter Hop. rewrite matchesFilter_greater by done.
    destruct (get record (column filter)) as [| | |n|];
      (split; [try done; by eauto | by intros (? & [= <-] & ?)]).
  - intros record filter Hop. rewrite matchesFilter_less by done.
    destruct (get record (column filter)) as [| | |n|];
      (split; [try done; by eauto | by intros (? & [= <-] & ?)]).
  - intros record filter Hop Hnon.
    destruct Hop as [Hop | Hop];
      [rewrite matchesFilter_greater by done
      | rewrite matchesFilter_less by done];
      (destruct (get record (column filter)) as [| | |n|] eqn:Hv; try done);
      (destruct Hnon as [Hty | ->]; [done|]).
    + apply gt_NaN_r.
    + apply lt_NaN_r.
  - intros record col op digits rest Hop Hne Hds Hrest.
    destruct Hop as [-> | ->];
      [rewrite !matchesFilter_greater by done
      | rewrite !matchesFilter_less by done];
      cbn [column value]; by rewrite parseFloat_digits_prefix.
  - done.
Qed.

(** The amended statement at the record with [sales = 20]: the filter
    [greater 12abc] is the filter [greater 12], and a condition value
    without a number at its front rejects the record. *)
Lemma C6_ordering_witness :
  matchesFilter sales_20 greater_12abc
  = matchesFilter sales_20
      {| column := "sales"; value := "12"; operator := "greater" |}
  ∧ matchesFilter sales_20
      {| column := "sales"; value := "abc"; operator := "less" |} = false.
Proof.
  destruct C6_ordering_by_parsed_number as (_ & _ & Hfalse & Hprefix & _).
  split.
  - by apply (Hprefix sales_20 "sales" "greater" "12" "abc"); [left | ..].
  - apply Hfalse; [by right | by right].
Defined.

(** C7, as stated, fails: [alice] is not a substring of [Alice] when
    case counts, but the filter accepts the record. *)
Lemma C7_counterexample :
  includes (ToString (get alice (column contains_alice)))
    (value contains_alice) = false
  ∧ matchesFilter alice contains_alice = true.
Proof. by vm_compute. Qed.

(** C7, amended: a [contains] filter is true exactly when the lower-cased
    condition value is a substring of the lower-cased string
    representation of the field value; the comparison ignores case. *)
Theorem C7_contains_ignores_case (record : DataRecord) (filter : FilterConfig) :
  operator filter = "contains" →
  (matchesFilter record filter = true ↔
     ∃ a b, toLowerCase (ToString (get record (column filter)))
            = a +:+ toLowerCase (value filter) +:+ b)
  ∧ matchesFilter record filter =
      includes (toLowerCase (ToString (get record (column filter))))
        (toLowerCase (value filter)).
Proof.
  intros Hop.
  assert (Heq : matchesFilter record filter =
                includes (toLowerCase (ToString (get record (column filter))))
                  (toLowerCase (value filter))).
  { unfold matchesFilter. by rewrite Hop. }
  split; [by rewrite Heq, includes_spec | done].
Qed.

Lemma C7_contains_witness :
  matchesFilter alice {| column := "name"; value := "LIC"; operator := "contains" |}
  = includes (toLowerCase "Alice") (toLowerCase "LIC").
Proof.
  exact (proj2
    (C7_contains_ignores_case alice
       {| column := "name"; value := "LIC"; operator := "contains" |}
       eq_refl)).
Defined.

(** ** The request [App] posts *)

Lemma apiParameters_moved (params : TransformationParameters) (v : Json) :
  params !! "pivot_columns" = Some v → truthy v = true →
  apiParameters params = delete "pivot_columns" (<["columns" := v]> params).
Proof. unfold apiParameters. by intros -> ->. Qed.

Lemma apiParameters_kept (params : TransformationParameters) :
  (∀ v, params !! "pivot_columns" = Some v → truthy v = false) →
  apiParameters params = params.
Proof.
  unfold apiParameters. intros Hfalsy.
  destruct (params !! "pivot_columns") as [v|]; [|done].
  by rewrite (Hfalsy v).
Qed.

(** C9, as stated, fails: with the pivot column select back on its
    placeholder, a request is posted, and it carries the key
    [pivot_columns] (with the empty string) and no key [columns]. *)
Lemma C9_counterexample :
  ∃ request,
    apiRequest pivot_column_cleared = Some request
    ∧ st_parameters pivot_column_cleared !! "pivot_columns" = Some (JStr "")
    ∧ parameters request !! "pivot_columns" = Some (JStr "")
    ∧ parameters request !! "columns" = None.
Proof. eexists. split_and!; [reflexivity | by vm_compute..]. Qed.

(** C9, amended: a posted request holds the original table and the
    selected transformation.  When [parameters.pivot_columns] is truthy
    (a non-empty string), its value is sent under [columns], the key
    [pivot_columns] is absent, and every other key is as in the state.
    A request that does carry the key [pivot_columns] carries a falsy
    value there (the empty string of the cleared select), and its
    parameters are then the state's, unchanged.  The handler uses the
    HTTP layer only for this request. *)
Theorem C9_pivot_column_sent_as_columns
    (app : AppState) (request : TransformationRequest) :
  apiRequest (dashboard app) = Some request →
  data request = originalData (dashboard app)
  ∧ transformation_type request = selectedTransformation (dashboard app)
  ∧ (∀ v, st_parameters (dashboard app) !! "pivot_columns" = Some v →
          truthy v = true →
          parameters request !! "columns" = Some v
          ∧ parameters request !! "pivot_columns" = None
          ∧ ∀ k, k ≠ "columns" → k ≠ "pivot_columns" →
                 parameters request !! k = st_parameters (dashboard app) !! k)
  ∧ (∀ v, parameters request !! "pivot_columns" = Some v →
          truthy v = false
          ∧ parameters request = st_parameters (dashboard app))
  ∧ (∀ post post',
       post "/transform/" request = post' "/transform/" request →
       handleExecuteTransformation post app
       = handleExecuteTransformation post' app).
Proof.
  intros Hreq. pose proof Hreq as Hreq'. unfold apiRequest in Hreq.
  destruct (_ || _); [done|]. injection Hreq as <-. simpl.
  split_and!; [done..| | |].
  - intros v Hv Ht. rewrite (apiParameters_moved _ v Hv Ht).
    split_and!.
    + by rewrite lookup_delete_ne, lookup_insert_eq.
    + by rewrite lookup_delete_eq.
    + intros k Hk1 Hk2. by rewrite lookup_delete_ne, lookup_insert_ne.
  - intros v. destruct (st_parameters (dashboard app) !! "pivot_columns")
      as [w|] eqn:Hw.
    + destruct (truthy w) eqn:Ht.
      * rewrite (apiParameters_moved _ w Hw Ht), lookup_delete_eq. done.
      * rewrite apiParameters_kept; [|intros; congruence].
        rewrite Hw. by intros [= <-].
    + rewrite apiParameters_kept; [|intros; congruence]. by rewrite Hw.
  - intros post post' Hpost. unfold handleExecuteTransformation.
    rewrite Hreq'. unfold useApi.transformData, ApiService.transformData,
      ApiService.post_or_throw. by rewrite Hpost.
Qed.

Lemma C9_pivot_column_witness :
  parameters
    {| data := generateSampleData "sales";
       transformation_type := "pivot";
       parameters := apiParameters (st_parameters (dashboard pivot_column_chosen)) |}
    !! "columns" = Some (JStr "product").
Proof.
  refine (proj1 (proj1 (proj2 (proj2
    (C9_pivot_column_sent_as_columns pivot_column_chosen _ eq_refl)))
    (JStr "product") _ eq_refl)).
  by vm_compute.
Defined.

(** ** Row counts *)


Lemma wrap_counts (request : TransformationRequest) (output : Table)
    (elapsed : number) :
  result_data (wrap request output elapsed) = output
  ∧ result_metadata (wrap request output elapsed) !! "transformed_rows"
    = Some (row_count output)
  ∧ result_metadata (wrap request output elapsed) !! "original_rows"
    = Some (row_count (data request)).
Proof.
  unfold wrap; simpl. case_bool_decide; split_and!; try done.
Qed.

Lemma execute_inv component (request : TransformationRequest)
    (elapsed : number) (result : TransformationResult) :
  execute component request elapsed = Ok result →
  ∃ output t, result = wrap request output t.
Proof.
  unfold execute. destruct (data request) as [|r rs].
  - intros [= <-]. eauto.
  - destruct (component _ _ _) as [output|e]; simpl; [|done].
    intros [= <-]. eauto.
Qed.

(** C2: in a result of the dispatcher, [transformed_rows] is the number
    of rows of the result's table and [original_rows] the number of rows
    of the request's table.  In the client, the panel's [originalCount]
    and [transformedCount] are the lengths of [originalData] and of
    [transformedData]; after a transformation that succeeded these are
    the lengths of the request's table and of the response's table. *)
Theorem C2_row_counts :
  (∀ component request elapsed result,
     execute component request elapsed = Ok result →
     result_metadata result !! "transformed_rows"
       = Some (JNum (Z.of_nat (length (result_data result))))
     ∧ result_metadata result !! "original_rows"
       = Some (JNum (Z.of_nat (length (data request)))))
  ∧ (∀ d props,
       metadataPanel d = Some props →
       originalCount props = length (originalData d)
       ∧ transformedCount props = length (transformedData d))
  ∧ (∀ post app request reply props,
       apiRequest (dashboard app) = Some request →
       post "/transform/" request = inr reply →
       metadataPanel (dashboard (handleExecuteTransformation post app))
         = Some props →
       originalCount props = length (data request)
       ∧ transformedCount props = length (response_data reply)).
Proof.
  assert (Hpanel : ∀ d props, metadataPanel d = Some props →
            originalCount props = length (originalData d)
            ∧ transformedCount props = length (transformedData d)).
  { intros d props. unfold metadataPanel. case_bool_decide; [|done].
    by intros [= <-]. }
  split_and!.
  - intros component request elapsed result
      (output & t & ->)%execute_inv.
    destruct (wrap_counts request output t) as (-> & -> & ->). done.
  - done.
  - intros post app request reply props Hreq Hpost Hprops.
    apply Hpanel in Hprops as [-> ->].
    unfold handleExecuteTransformation, useApi.transformData,
      ApiService.transformData, ApiService.post_or_throw.
    rewrite Hreq, Hpost. simpl.
    unfold apiRequest in Hreq. destruct (_ || _); [done|].
    by injection Hreq as <-.
Qed.

(** ** Aggregation *)

Lemma traverse_Forall2 {A B : Type} (f : A → Result B) (l : list A) (out : list B) :
  traverse f l = Ok out → Forall2 (λ a b, f a = Ok b) l out.
Proof.
  revert out. induction l as [|a l IH]; intros out; simpl.
  - intros [= <-]. constructor.
  - destruct (f a) as [b|e] eqn:Hfa; simpl; [|done].
    destruct (traverse f l) as [bs|e]; simpl; [|done].
    intros [= <-]. constructor; [done | by apply IH].
Qed.

Lemma add_to_bucket_keys (k : GroupKey) (record : DataRecord)
    (buckets : list (GroupKey * Table)) :
  (add_to_bucket k record buckets).*1 =
    if decide (k ∈ buckets.*1) then buckets.*1 else buckets.*1 ++ [k].
Proof.
  induction buckets as [|[k' rows] rest IH]; [done|].
  cbn [add_to_bucket fmap list_fmap fst].
  case_bool_decide as Hk; cbn [fmap list_fmap fst].
  - subst k'. rewrite decide_True by left. done.
  - rewrite IH. destruct (decide (k ∈ rest.*1)) as [Hin|Hnin].
    + rewrite decide_True by (by right). done.
    + rewrite decide_False; [done|].
      intros [?|?]%elem_of_cons; congruence.
Qed.

Lemma partition_keys_from (group_by : list string) (table : Table)
    (buckets : list (GroupKey * Table)) :
  (foldl (λ bs record, add_to_bucket (group_key group_by record) record bs)
     buckets table).*1
  = buckets.*1 ++ distinct_from (buckets.*1) (map (group_key group_by) table).
Proof.
  revert buckets. induction table as [|record table IH]; intros buckets; simpl.
  - by rewrite app_nil_r.
  - rewrite IH, add_to_bucket_keys.
    destruct (decide (group_key group_by record ∈ buckets.*1)); [done|].
    by rewrite <- app_assoc.
Qed.

(** The buckets carry the distinct group keys in first-seen order. *)
Lemma partition_keys (group_by : list string) (table : Table) :
  (partition group_by table).*1 = first_seen (map (group_key group_by) table).
Proof. apply (partition_keys_from group_by table []). Qed.

Lemma distinct_from_subseteq {A : Type} `{EqDecision A} (seen l : list A) :
  distinct_from seen l ⊆ l.
Proof.
  revert seen. induction l as [|x l IH]; intros seen; simpl; [done|].
  destruct (decide (x ∈ seen)).
  - intros y Hy. right. by apply (IH seen).
  - intros y [->|Hy]%elem_of_cons; [left | right; by apply (IH (seen ++ [x]))].
Qed.

Lemma get_zip_key_columns (group_by : list string) (f : string → JsValue)
    (cols : DataRecord) (c : string) :
  c ∈ group_by → get (zip group_by (map f group_by) ++ cols) c = f c.
Proof.
  induction group_by as [|c' group_by IH]; simpl.
  - by intros ?%elem_of_nil.
  - intros Hc. case_bool_decide as Heq; [by subst|].
    apply IH. apply elem_of_cons in Hc as [?|?]; [congruence | done].
Qed.

Lemma cell_idemp (record : DataRecord) (c : string) :
  match cell record c with JsUndefined => JsNull | v => v end = cell record c.
Proof. unfold cell. by destruct (get record c). Qed.

(** The group key can be read back from the output row of a bucket. *)
Lemma group_key_bucket_row (group_by : list string) (record : DataRecord)
    (cols : DataRecord) :
  group_key group_by (zip group_by (group_key group_by record) ++ cols)
  = group_key group_by record.
Proof.
  unfold group_key. apply map_ext_in. intros c Hc%list_elem_of_In.
  unfold cell at 1. rewrite (get_zip_key_columns _ (cell record)) by done.
  apply cell_idemp.
Qed.

Lemma first_seen_from_table (group_by : list string) (table : Table) (k : GroupKey) :
  k ∈ first_seen (map (group_key group_by) table) →
  ∃ record, k = group_key group_by record.
Proof.
  intros Hk. apply distinct_from_subseteq in Hk.
  apply list_elem_of_fmap in Hk as (record & -> & _). eauto.
Qed.

(** The output rows of an aggregation, read by their group keys, are the
    distinct group keys of the input in first-seen order. *)
Lemma aggregate_keys (table : Table) (group_by : list string)
    (aggregations : list (string * Statistic)) (out : Table) :
  aggregate table group_by aggregations = Ok out →
  map (group_key group_by) out = first_seen (map (group_key group_by) table).
Proof.
  unfold aggregate. case_bool_decide; [done|].
  destruct (negb _); [done|].
  intros Hrows%traverse_Forall2. rewrite <- partition_keys.
  assert (Hkeys : Forall (λ bucket, ∃ record, bucket.1 = group_key group_by record)
                    (partition group_by table)).
  { apply Forall_forall. intros bucket Hb.
    apply (first_seen_from_table group_by table). rewrite <- partition_keys.
    apply list_elem_of_fmap. eauto. }
  induction Hrows as [|bucket row buckets rows Hrow _ IH]; [done|].
  apply Forall_cons in Hkeys as [[record Hk] Hkeys]. simpl.
  rewrite IH by done. f_equal.
  unfold bucket_row in Hrow.
  destruct (traverse _ aggregations) as [cols|e]; simpl in Hrow; [|done].
  injection Hrow as <-. rewrite Hk. apply group_key_bucket_row.
Qed.

(** C3: summing [sales] by [region] over the table of scenario 1 gives
    exactly the rows (North, 250) and (South, 320), and so does the
    README's example; in every aggregation the output rows, read by their
    group keys, are the distinct group-key tuples of the input in the
    order in which a scan from the top first meets them. *)
Theorem C3_aggregate_by_region :
  aggregate scenario1_table ["region"] [("sales", stat_sum)]
    = Ok [region_sales "North" 250; region_sales "South" 320]
  ∧ aggregate readme_aggregate_table ["region"] [("sales", stat_sum)]
    = Ok [region_sales "North" 250; region_sales "South" 320]
  ∧ (∀ table group_by aggregations out,
       aggregate table group_by aggregations = Ok out →
       map (group_key group_by) out
       = first_seen (map (group_key group_by) table)).
Proof.
  split_and!; [by vm_compute | by vm_compute |].
  apply aggregate_keys.
Qed.

(** The order of the output at a table whose first row is a South row. *)
Lemma C3_first_seen_witness :
  map (group_key ["region"])
    [region_sales "South" 320; region_sales "North" 250]
  = first_seen (map (group_key ["region"])
      [ region_sales "South" 200; region_sales "North" 100;
        region_sales "South" 120; region_sales "North" 150 ]).
Proof.
  apply (proj2 (proj2 C3_aggregate_by_region)
           [ region_sales "South" 200; region_sales "North" 100;
             region_sales "South" 120; region_sales "North" 150 ]
           ["region"] [("sales", stat_sum)]).
  by vm_compute.
Defined.

(** The dispatcher's counters at scenario 1. *)
Lemma C2_row_counts_witness :
  result_metadata
    (wrap {| data := scenario1_table; transformation_type := "aggregate";
             parameters := ∅ |}
       [region_sales "North" 250; region_sales "South" 320] zero)
    !! "transformed_rows"
  = Some (JNum 2).
Proof.
  refine (proj1 (proj1 C2_row_counts
    (λ _ _ table, aggregate table ["region"] [("sales", stat_sum)])
    {| data := scenario1_table; transformation_type := "aggregate";
       parameters := ∅ |}
    zero _ _)).
  by vm_compute.
Defined.

(** ** Normalization *)

Lemma SFltb_trans (a b c : number) :
  SFltb a b = true → SFltb b c = true → SFltb a c = true.
Proof.
  unfold SFltb.
  destruct a as [sa|sa| |sa ma ea], b as [sb|sb| |sb mb eb],
    c as [sc|sc| |sc mc ec]; simpl; try done;
    try (by destruct sa, sb, sc).
  change (Pos.compare_cont Eq) with Pos.compare.
  destruct sa, sb, sc; try done;
    destruct (Z.compare_spec ea eb), (Z.compare_spec eb ec),
      (Z.compare_spec ea ec); try done; try lia; subst;
    destruct (Pos.compare_spec ma mb), (Pos.compare_spec mb mc),
      (Pos.compare_spec ma mc); simpl; try done; lia.
Qed.

Lemma lt_trans (a b c : number) :
  Number.lt a b = true → Number.lt b c = true → Number.lt a c = true.
Proof. apply SFltb_trans. Qed.

Lemma lt_irrefl (a : number) : Number.lt a a = false.
Proof.
  destruct a as [|[]| |[] m e]; try done;
    unfold Number.lt, SFltb; simpl;
    by rewrite Z.compare_refl, Pos.compare_cont_refl.
Qed.

Lemma gt_trans (a b c : number) :
  Number.gt a b = true → Number.gt b c = true → Number.gt a c = true.
Proof. unfold Number.gt. intros Hab Hbc. by apply (SFltb_trans c b a). Qed.

Lemma gt_irrefl (a : number) : Number.gt a a = false.
Proof. apply lt_irrefl. Qed.

Section Extremum.

(** A strict order [before], and the scan that keeps the element that
    comes before the one kept so far. *)
Variable before : number → number → bool.
Hypothesis before_trans :
  ∀ a b c, before a b = true → before b c = true → before a c = true.
Hypothesis before_irrefl : ∀ a, before a a = false.

Lemma fold_extremum_spec (x : number) (xs : list number) :
  let m := foldl (λ m y, if before y m then y else m) x xs in
  m ∈ x :: xs ∧ Forall (λ y, before y m = false) xs
  ∧ (before m x = true ∨ m = x).
Proof.
  revert x. induction xs as [|y xs IH]; intros x; simpl.
  - split_and!; [left | constructor | by right].
  - specialize (IH (if before y x then y else x)). simpl in IH.
    set (m := foldl _ _ xs) in *.
    destruct IH as (Hin & Hall & Hle).
    destruct (before y x) eqn:Hyx.
    + split_and!.
      * by right.
      * constructor; [|done].
        destruct Hle as [Hlt | ->]; [|apply before_irrefl].
        destruct (before y m) eqn:Hym; [|done].
        by rewrite <- (before_irrefl y), <- (before_trans _ _ _ Hym Hlt).
      * left. destruct Hle as [Hlt | ->]; [by eapply before_trans | done].
    + split_and!.
      * apply elem_of_cons in Hin as [->|Hin]; [left | right; by right].
      * constructor; [|done].
        destruct Hle as [Hlt | ->]; [|done].
        destruct (before y m) eqn:Hym; [|done].
        by rewrite <- Hyx, <- (before_trans _ _ _ Hym Hlt).
      * done.
Qed.

Lemma fold_extremum_all (x : number) (xs : list number) :
  let m := foldl (λ m y, if before y m then y else m) x xs in
  m ∈ x :: xs ∧ Forall (λ y, before y m = false) (x :: xs).
Proof.
  destruct (fold_extremum_spec x xs) as (Hin & Hall & Hle).
  split; [done|]. constructor; [|done].
  destruct Hle as [Hlt | ->]; [|apply before_irrefl].
  destruct (before x _) eqn:Hx; [|done].
  by rewrite <- (before_irrefl x), <- (before_trans _ _ _ Hx Hlt).
Qed.

End Extremum.

(** [minimum] is an element of the list below which no element lies, and
    [maximum] one above which no element lies. *)
Lemma minimum_spec (xs : list number) :
  xs ≠ [] →
  minimum xs ∈ xs ∧ Forall (λ y, Number.lt y (minimum xs) = false) xs.
Proof.
  destruct xs as [|x xs]; [done|]. intros _.
  apply (fold_extremum_all Number.lt lt_trans lt_irrefl).
Qed.

Lemma maximum_spec (xs : list number) :
  xs ≠ [] →
  maximum xs ∈ xs ∧ Forall (λ y, Number.gt y (maximum xs) = false) xs.
Proof.
  destruct xs as [|x xs]; [done|]. intros _.
  apply (fold_extremum_all Number.gt gt_trans gt_irrefl).
Qed.

Lemma lookup_map {A B : Type} (f : A → B) (l : list A) (i : nat) :
  map f l !! i = f <$> l !! i.
Proof. apply list_lookup_fmap. Qed.

Lemma get_normalize_record (table : Table) (columns : list string)
    (method : Method) (record : DataRecord) (c : string) :
  get (normalize_record table columns method record) c =
    match get record c with
    | JsNumber x =>
        if bool_decide (c ∈ columns)
        then JsNumber (method (numeric_values c table) x)
        else JsNumber x
    | v => v
    end.
Proof.
  induction record as [|[k v] record IH]; [done|].
  unfold normalize_record in *. simpl.
  destruct (decide (k = c)) as [->|Hne].
  - rewrite (bool_decide_true (c = c)) by done.
    destruct v as [| | |x|]; simpl; try by rewrite bool_decide_true.
    destruct (bool_decide (c ∈ columns)); simpl; by rewrite bool_decide_true.
  - rewrite (bool_decide_false (k = c)) by done. rewrite <- IH.
    destruct v as [| | |x|]; simpl; try by rewrite bool_decide_false.
    destruct (bool_decide (k ∈ columns)); simpl; by rewrite bool_decide_false.
Qed.

Lemma numeric_values_elem (table : Table) (record : DataRecord) (c : string)
    (x : number) :
  record ∈ table → get record c = JsNumber x → x ∈ numeric_values c table.
Proof.
  intros Hr Hx. unfold numeric_values. apply list_elem_of_omap.
  exists record. split; [done|]. unfold cell. by rewrite Hx.
Qed.

(** C4: min-max normalization keeps the number of rows and sends a
    numeric value [x] of a listed column to [(x - min) / (max - min)],
    and to 0 when [max == min]; [min] and [max] are taken over the
    numeric values of that column in the given table, where [min] is a
    value of the column that none is below and [max] one that none is
    above.  The column 10, 20, 30 becomes 0, 0.5, 1. *)
Theorem C4_min_max_normalize :
  (∀ table columns out i record c x,
     normalize table columns min_max = Ok out →
     table !! i = Some record → c ∈ columns → get record c = JsNumber x →
     let lo := minimum (numeric_values c table) in
     let hi := maximum (numeric_values c table) in
     length out = length table
     ∧ (lo ∈ numeric_values c table
        ∧ Forall (λ y, Number.lt y lo = false) (numeric_values c table))
     ∧ (hi ∈ numeric_values c table
        ∧ Forall (λ y, Number.gt y hi = false) (numeric_values c table))
     ∧ ∃ record',
         out !! i = Some record'
         ∧ get record' c =
             JsNumber (if Number.eqb hi lo then zero
                       else Number.div (Number.sub x lo) (Number.sub hi lo)))
  ∧ normalize [x_row (of_Z 10); x_row (of_Z 20); x_row (of_Z 30)] ["x"] min_max
    = Ok [x_row zero; x_row (of_decimal false 5 (-1)); x_row (of_Z 1)].
Proof.
  split; [|by vm_compute].
  intros table columns out i record c x Hnorm Hi Hc Hx lo hi.
  unfold normalize in Hnorm. destruct (negb _); [done|].
  injection Hnorm as <-.
  assert (Hne : numeric_values c table ≠ []).
  { intros Hnil. apply list_elem_of_lookup_2 in Hi.
    pose proof (numeric_values_elem table record c x Hi Hx) as Hin.
    rewrite Hnil in Hin. by apply elem_of_nil in Hin. }
  split_and!.
  - by rewrite length_map.
  - by apply minimum_spec.
  - by apply minimum_spec.
  - by apply maximum_spec.
  - by apply maximum_spec.
  - exists (normalize_record table columns min_max record). split.
    + by rewrite lookup_map, Hi.
    + rewrite get_normalize_record, Hx. by rewrite bool_decide_true.
Qed.

Lemma C4_min_max_witness :
  get (x_row (of_decimal false 5 (-1))) "x"
  = JsNumber
      (if Number.eqb (of_Z 30) (of_Z 10) then zero
       else Number.div (Number.sub (of_Z 20) (of_Z 10))
              (Number.sub (of_Z 30) (of_Z 10))).
Proof.
  destruct (proj1 C4_min_max_normalize
              [x_row (of_Z 10); x_row (of_Z 20); x_row (of_Z 30)] ["x"]
              [x_row zero; x_row (of_decimal false 5 (-1)); x_row (of_Z 1)]
              1%nat (x_row (of_Z 20)) "x" (of_Z 20))
    as (_ & _ & _ & record' & Hrow & Hget).
  - by vm_compute.
  - done.
  - apply list_elem_of_singleton. done.
  - done.
  - injection Hrow as <-. exact Hget.
Defined.

(** ** Batches *)

Lemma batch_from_length component (clock : nat → number)
    (requests : list TransformationRequest) (i : nat) :
  length (batch_from component i clock requests) = length requests.
Proof.
  revert i. induction requests as [|request requests IH]; intros i; simpl;
    [done | by rewrite IH].
Qed.

Lemma batch_from_lookup component (clock : nat → number)
    (requests : list TransformationRequest) (i j : nat)
    (request : TransformationRequest) :
  requests !! j = Some request →
  batch_from component i clock requests !! j
  = Some (execute component request (clock (i + j)%nat)).
Proof.
  revert i j. induction requests as [|r requests IH]; intros i j; [done|].
  destruct j as [|j]; simpl.
  - intros [= ->]. by rewrite Nat.add_0_r.
  - intros Hj. rewrite (IH (S i) j Hj). do 3 f_equal. lia.
Qed.

(** C8: the batch runner returns one entry per request, at the
    request's index; the entry is what the dispatcher returns for that
    request alone, so a request that fails leaves an error entry at its
    index and every other request is still executed.  The client's
    [batchTransform] posts the requests in their order and returns the
    entries of the response as they came. *)
Theorem C8_batch_order_and_isolation component (clock : nat → number)
    (requests : list TransformationRequest) :
  length (batch_execute component clock requests) = length requests
  ∧ (∀ i request,
       requests !! i = Some request →
       batch_execute component clock requests !! i
       = Some (execute component request (clock i)))
  ∧ (∀ i request e,
       requests !! i = Some request →
       execute component request (clock i) = Err e →
       batch_execute component clock requests !! i = Some (Err e)
       ∧ ∀ j other,
           j ≠ i → requests !! j = Some other →
           batch_execute component clock requests !! j
           = Some (execute component other (clock j)))
  ∧ (∀ post : string → ApiService.BatchBody
                 → Thrown + list (Result TransformationResult),
       post "/batch-transform/" {| ApiService.transformations := requests |}
       = inr (batch_execute component clock requests) →
       ApiService.batchTransform post requests
       = Resolved (batch_execute component clock requests)).
Proof.
  assert (Hlookup : ∀ i request,
            requests !! i = Some request →
            batch_execute component clock requests !! i
            = Some (execute component request (clock i))).
  { intros i request Hi. unfold batch_execute.
    by rewrite (batch_from_lookup _ _ _ 0 i request Hi). }
  split_and!.
  - apply batch_from_length.
  - done.
  - intros i request e Hi He. split.
    + by rewrite (Hlookup i request Hi), He.
    + intros j other _ Hj. by apply Hlookup.
  - intros post Hpost.
    unfold ApiService.batchTransform, ApiService.post_or_throw.
    by rewrite Hpost.
Qed.

(** A batch whose first request fails: the second is answered all the
    same. *)
Lemma C8_batch_witness :
  batch_execute sales_by_region_component (λ _, zero)
    [unknown_request; aggregate_request] !! 0%nat
  = Some (Err (ValidationError "unknown transformation type"))
  ∧ ∀ j other,
      j ≠ 0%nat →
      [unknown_request; aggregate_request] !! j = Some other →
      batch_execute sales_by_region_component (λ _, zero)
        [unknown_request; aggregate_request] !! j
      = Some (execute sales_by_region_component other zero).
Proof.
  apply (proj1 (proj2 (proj2 (C8_batch_order_and_isolation
    sales_by_region_component (λ _, zero)
    [unknown_request; aggregate_request]))) 0%nat unknown_request).
  - done.
  - by vm_compute.
Defined.

(* ===================================================================== *)
(** * Part III: further properties of the client                         *)
(* ===================================================================== *)

(** ** The sort cycle *)

(** X1: a click on a column that is not the sorted one sorts by it in
    ascending order; a second click on it sorts in descending order, a
    third removes the sort; so a fourth click does what the first did.
    The rows shown follow: after the first click they are the table
    sorted by the ascending comparator, after the second by the
    descending one, which compares every two rows the other way round,
    and after the third they are the table as it stands.  A click changes
    nothing of the state but the sort configuration. *)
Theorem handleSort_cycle (k : string) (state : DashboardState) :
  ((∀ c, sortConfig state = Some c → key c ≠ k) →
     sortConfig (handleSort k state) = Some {| key := k; direction := asc |})
  ∧ (sortConfig (handleSort k state) = Some {| key := k; direction := asc |} →
     sortConfig (handleSort k (handleSort k state))
       = Some {| key := k; direction := desc |}
     ∧ sortConfig (handleSort k (handleSort k (handleSort k state))) = None)
  ∧ sortConfig (handleSort k (handleSort k (handleSort k (handleSort k state))))
    = sortConfig (handleSort k state)
  ∧ (∀ localeCompare,
       sortConfig (handleSort k state) = Some {| key := k; direction := asc |} →
       sortedData localeCompare (handleSort k state)
         = Array_sort (compareRecords localeCompare
                         {| key := k; direction := asc |})
             (transformedData state)
       ∧ sortedData localeCompare (handleSort k (handleSort k state))
         = Array_sort (compareRecords localeCompare
                         {| key := k; direction := desc |})
             (transformedData state)
       ∧ sortedData localeCompare
           (handleSort k (handleSort k (handleSort k state)))
         = transformedData state)
  ∧ (∀ localeCompare a b,
       compareRecords localeCompare {| key := k; direction := desc |} a b
       = compareRecords localeCompare {| key := k; direction := asc |} b a)
  ∧ originalData (handleSort k state) = originalData state
  ∧ transformedData (handleSort k state) = transformedData state
  ∧ selectedTransformation (handleSort k state) = selectedTransformation state
  ∧ st_parameters (handleSort k state) = st_parameters state
  ∧ loading (handleSort k state) = loading state
  ∧ filters (handleSort k state) = filters state.
Proof.
  assert (Hstep : ∀ st,
    sortConfig (handleSort k st) =
      match sortConfig st with
      | None => Some {| key := k; direction := asc |}
      | Some c =>
          if bool_decide (key c = k) then
            match direction c with
            | asc => Some {| key := k; direction := desc |}
            | desc => None
            end
          else Some {| key := k; direction := asc |}
      end).
  { intros st. unfold handleSort; simpl.
    destruct (sortConfig st) as [c|]; [|done]. by case_bool_decide. }
  assert (Hcycle :
    sortConfig (handleSort k state) = Some {| key := k; direction := asc |} →
    sortConfig (handleSort k (handleSort k state))
      = Some {| key := k; direction := desc |}
    ∧ sortConfig (handleSort k (handleSort k (handleSort k state))) = None).
  { intros Hasc.
    assert (Hdesc : sortConfig (handleSort k (handleSort k state))
                    = Some {| key := k; direction := desc |}).
    { rewrite (Hstep (handleSort k state)), Hasc. cbn [key direction].
      by rewrite bool_decide_true. }
    split; [done|].
    rewrite (Hstep (handleSort k (handleSort k state))), Hdesc.
    cbn [key direction]. by rewrite bool_decide_true. }
  split_and!; [| done | | | |done..].
  - intros Hother. rewrite Hstep. destruct (sortConfig state) as [c|]; [|done].
    by rewrite bool_decide_false by by apply Hother.
  - rewrite !Hstep. destruct (sortConfig state) as [[k' []]|]; simpl;
      repeat (case_bool_decide; simpl; try done).
  - intros localeCompare Hasc. destruct (Hcycle Hasc) as [Hdesc Hnone].
    unfold sortedData. by rewrite Hasc, Hdesc, Hnone.
  - intros localeCompare a b. unfold compareRecords. cbn [key direction].
    by destruct (get a k), (get b k).
Qed.

Lemma handleSort_cycle_witness :
  sortConfig (handleSort "age" users_by_absent_column)
  = Some {| key := "age"; direction := asc |}.
Proof.
  apply (proj1 (handleSort_cycle "age" users_by_absent_column)).
  by intros c [= <-].
Defined.

(** ** Sorting and the displayed records *)

Lemma sortedData_perm localeCompare (state : DashboardState) :
  sortedData localeCompare state ≡ₚ transformedData state.
Proof.
  unfold sortedData. destruct (sortConfig state); [apply Array_sort_perm | done].
Qed.

Lemma displayData_filter localeCompare (state : DashboardState) :
  displayData localeCompare state =
    filter (λ record, forallb (matchesFilter record) (filters state))
      (sortedData localeCompare state).
Proof. apply filteredAndSortedData_filter. Qed.

(** X2: the sort decides the order of the displayed records and nothing
    else: whatever sort configuration is set, the displayed records are
    the same records, with the same multiplicities. *)
Theorem sort_keeps_displayed_records
    (localeCompare : string → string → number)
    (state : DashboardState) (cfg : option SortConfig) (k : string) :
  displayData localeCompare (dashboardReducer state (SET_SORT cfg))
    ≡ₚ displayData localeCompare state
  ∧ displayData localeCompare (handleSort k state)
    ≡ₚ displayData localeCompare state.
Proof.
  assert (H : ∀ st, transformedData st = transformedData state →
                    filters st = filters state →
                    displayData localeCompare st ≡ₚ displayData localeCompare state).
  { intros st Ht Hf. rewrite !displayData_filter, Hf.
    apply filter_Permutation.
    by rewrite !sortedData_perm, Ht. }
  split; by apply H.
Qed.

(** The insertion that never moves past an element leaves the list as
    it is. *)
Lemma Array_sort_id {A : Type} (cmp : A → A → number) (l : list A) :
  (∀ a b, a ∈ l → b ∈ l → Number.gt (cmp a b) zero = false) →
  Array_sort cmp l = l.
Proof.
  induction l as [|x l IH]; intros Hle; simpl; [done|].
  rewrite IH by (intros a b Ha Hb; apply Hle; by right).
  destruct l as [|y l]; [done|]. simpl.
  rewrite Hle; [done | left | right; left].
Qed.

Lemma get_absent (record : DataRecord) (k : string) :
  k ∉ Object_keys record → get record k = JsUndefined.
Proof.
  induction record as [|[k' v] record IH]; simpl; [done|].
  intros [Hne Hnin]%not_elem_of_cons.
  rewrite bool_decide_false by done. by apply IH.
Qed.

(** X3: sorting by a column that no record has keeps the order of the
    table, in either direction, provided the collation does not put
    the text [undefined] after itself. *)
Theorem sort_by_absent_column
    (localeCompare : string → string → number)
    (state : DashboardState) (cfg : SortConfig) :
  Number.gt (localeCompare "undefined" "undefined") zero = false →
  sortConfig state = Some cfg →
  (∀ record, record ∈ transformedData state → key cfg ∉ Object_keys record) →
  sortedData localeCompare state = transformedData state.
Proof.
  intros Hrefl Hcfg Habsent. unfold sortedData. rewrite Hcfg.
  apply Array_sort_id. intros a b Ha Hb. unfold compareRecords.
  rewrite (get_absent a), (get_absent b) by by apply Habsent.
  simpl. by destruct (direction cfg).
Qed.

Lemma sort_by_absent_column_witness :
  sortedData flat_collation users_by_absent_column
  = transformedData users_by_absent_column.
Proof.
  apply (sort_by_absent_column flat_collation users_by_absent_column
           {| key := "salary"; direction := asc |}); [done | done |].
  intros record Hr. simpl in Hr.
  repeat (apply elem_of_cons in Hr as [-> | Hr];
          [simpl; rewrite !not_elem_of_cons; split_and!; try done;
           apply not_elem_of_nil|]).
  by apply elem_of_nil in Hr.
Defined.

(** ** Filters as a list *)

Lemma filter_filter_bool {A : Type} (p q : A → bool) (l : list A) :
  filter (λ x, q x) (filter (λ x, p x) l) = filter (λ x, p x && q x) l.
Proof.
  induction l as [|x l IH]; [done|].
  rewrite !filter_cons. destruct (p x) eqn:Hp, (q x) eqn:Hq; simpl;
    rewrite ?filter_cons, ?Hq; simpl; by rewrite IH.
Qed.

Lemma forallb_snoc {A : Type} (p : A → bool) (l : list A) (x : A) :
  forallb p (l ++ [x]) = forallb p l && p x.
Proof. rewrite forallb_app. simpl. by rewrite andb_true_r. Qed.

Lemma displayData_add_filter
    (localeCompare : string → string → number)
    (state : DashboardState) (f : FilterConfig) :
  displayData localeCompare (dashboardReducer state (ADD_FILTER f))
    = filter (λ record, matchesFilter record f) (displayData localeCompare state).
Proof.
    rewrite !displayData_filter. simpl.
    rewrite (filter_filter_bool
               (λ record, forallb (matchesFilter record) (filters state))
               (λ record, matchesFilter record f)).
    unfold sortedData; simpl.
    induction (match sortConfig state with
               | Some cfg => Array_sort (compareRecords localeCompare cfg)
                               (transformedData state)
               | None => transformedData state
               end) as [|x l IH]; [done|].
    rewrite !filter_cons, forallb_snoc, IH. done.
Qed.

(** X4: adding a filter narrows what is displayed: the new display is
    the old display filtered by the new filter, so it is a subsequence
    of the old one; clearing the filters shows the whole sorted table. *)
Theorem add_filter_narrows
    (localeCompare : string → string → number)
    (state : DashboardState) (f : FilterConfig) :
  displayData localeCompare (dashboardReducer state (ADD_FILTER f))
    = filter (λ record, matchesFilter record f) (displayData localeCompare state)
  ∧ displayData localeCompare (dashboardReducer state (ADD_FILTER f))
      `sublist_of` displayData localeCompare state
  ∧ displayData localeCompare (dashboardReducer state CLEAR_FILTERS)
    = sortedData localeCompare state.
Proof.
  split_and!.
  - apply displayData_add_filter.
  - rewrite displayData_add_filter. apply sublist_filter.
  - done.
Qed.

(** The index filter of the reducer's source is the removal at that
    index. *)
Lemma reject_index_delete {A : Type} (payload : nat) (l : list A) :
  reject_index payload l = delete payload l.
Proof.
  unfold reject_index.
  assert (H : ∀ (g : nat → nat) (i : nat) (l : list A),
            (∀ j, g j = payload ↔ j = i) →
            (filter (λ p : nat * A, p.1 ≠ payload)
               (imap (λ j, pair (g j)) l)).*2 = delete i l).
  { clear l. intros g i l. revert g i.
    induction l as [|x l IH]; intros g i Hg; [done|].
    rewrite imap_cons, filter_cons. simpl.
    destruct i as [|i].
    - rewrite decide_False by (intros Hne; apply Hne; by apply Hg). simpl.
      clear IH.
      assert (Hall : ∀ (h : nat → nat) (l : list A),
                (∀ j, h j ≠ payload) →
                (filter (λ p : nat * A, p.1 ≠ payload)
                   (imap (λ j, pair (h j)) l)).*2 = l).
      { intros h l'. revert h.
        induction l' as [|y l' IH']; intros h Hh; [done|].
        rewrite imap_cons, filter_cons. simpl.
        rewrite decide_True by apply Hh. simpl. f_equal.
        apply (IH' (h ∘ S)). intros j. apply Hh. }
      apply (Hall (g ∘ S)). intros j Hj. apply Hg in Hj. done.
    - rewrite decide_True
        by (intros H0; apply Hg in H0; done).
      simpl. f_equal. apply (IH (g ∘ S) i).
      intros j. simpl. rewrite Hg. lia. }
  apply (H id payload l). done.
Qed.

(** X5: [REMOVE_FILTER] drops the filter at the given index and keeps
    the others in their order; an index past the end changes nothing;
    and removing the index at which a filter was just added undoes the
    addition. *)
Theorem remove_filter_at_index (state : DashboardState) (i : nat) :
  filters (dashboardReducer state (REMOVE_FILTER i))
    = reject_index i (filters state)
  ∧ (∀ j, (j < i)%nat →
       filters (dashboardReducer state (REMOVE_FILTER i)) !! j
       = filters state !! j)
  ∧ (∀ j, (i ≤ j)%nat →
       filters (dashboardReducer state (REMOVE_FILTER i)) !! j
       = filters state !! S j)
  ∧ ((length (filters state) ≤ i)%nat →
     dashboardReducer state (REMOVE_FILTER i) = state)
  ∧ (∀ f, filters (dashboardReducer (dashboardReducer state (ADD_FILTER f))
                     (REMOVE_FILTER (length (filters state))))
          = filters state).
Proof.
  split_and!.
  - by rewrite reject_index_delete.
  - intros j Hj. simpl. by apply list_lookup_delete_lt.
  - intros j Hj. simpl. by apply list_lookup_delete_ge.
  - intros Hlen. destruct state as [od td sel par lo so fs]. simpl in *.
    f_equal. apply list_eq. intros j.
    destruct (decide (j < i)%nat).
    + by rewrite list_lookup_delete_lt.
    + rewrite list_lookup_delete_ge by lia.
      rewrite !lookup_ge_None_2; [done | lia | lia].
  - intros f. simpl.
    rewrite <- (app_nil_r (filters state ++ [f])), <- app_assoc. simpl.
    by rewrite delete_middle, app_nil_r.
Qed.

Lemma remove_filter_witness :
  dashboardReducer users_by_absent_column (REMOVE_FILTER 3)
  = users_by_absent_column.
Proof.
  apply (proj1 (proj2 (proj2 (proj2
           (remove_filter_at_index users_by_absent_column 3))))).
  simpl. lia.
Defined.

Lemma forallb_Permutation {A : Type} (p : A → bool) (l l' : list A) :
  l ≡ₚ l' → forallb p l = forallb p l'.
Proof.
  induction 1 as [|x l l' _ IH|x y l|l l' l'' _ IH1 _ IH2]; simpl.
  - done.
  - by rewrite IH.
  - by rewrite !andb_assoc, (andb_comm (p y)).
  - by rewrite IH1.
Qed.

Lemma filter_all_in {A : Type} (P : A → Prop) `{!∀ x, Decision (P x)}
    (l : list A) :
  (∀ x, x ∈ l → P x) → filter P l = l.
Proof.
  induction l as [|x l IH]; intros HP; [done|].
  rewrite filter_cons_True by (apply HP; left).
  f_equal. apply IH. intros y Hy. apply HP. by right.
Qed.

(** X6: the order of the filters, and a filter listed twice, make no
    difference: two states with the same table, the same sort and the
    same filters up to order display the same list, and adding a filter
    that is already there changes nothing. *)
Theorem filter_order_irrelevant
    (localeCompare : string → string → number) (s1 s2 : DashboardState) :
  transformedData s1 = transformedData s2 →
  sortConfig s1 = sortConfig s2 →
  filters s1 ≡ₚ filters s2 →
  displayData localeCompare s1 = displayData localeCompare s2
  ∧ ∀ f, f ∈ filters s1 →
         displayData localeCompare (dashboardReducer s1 (ADD_FILTER f))
         = displayData localeCompare s1.
Proof.
  intros Ht Hs Hf. split.
  - rewrite !displayData_filter. unfold sortedData. rewrite Ht, Hs.
    apply list_filter_iff. intros record.
    by rewrite (forallb_Permutation _ _ _ Hf).
  - intros f Hin.
    rewrite displayData_add_filter.
    apply filter_all_in. intros record Hrecord.
    rewrite displayData_filter in Hrecord.
    apply list_elem_of_filter in Hrecord as [Hall _].
    apply Is_true_true in Hall. rewrite forallb_forall in Hall.
    apply Is_true_true, Hall. by apply list_elem_of_In.
Qed.

Lemma filter_order_witness :
  displayData flat_collation
    (dashboardReducer
       (dashboardReducer users_by_absent_column (ADD_FILTER greater_12abc))
       (ADD_FILTER contains_alice))
  = displayData flat_collation
      (dashboardReducer
         (dashboardReducer users_by_absent_column (ADD_FILTER contains_alice))
         (ADD_FILTER greater_12abc)).
Proof.
  apply (filter_order_irrelevant flat_collation
           (dashboardReducer
              (dashboardReducer users_by_absent_column (ADD_FILTER greater_12abc))
              (ADD_FILTER contains_alice))
           (dashboardReducer
              (dashboardReducer users_by_absent_column (ADD_FILTER contains_alice))
              (ADD_FILTER greater_12abc))); [done | done |].
  simpl. apply Permutation_swap.
Defined.

(** ** Single filters *)

(** X7: on a record that lacks the filter's column, the column being
    no property name that every object inherits, the field reads as
    [undefined]: a [contains] filter then looks for its text in the word
    "undefined", an [equals] filter compares its text with that word,
    and a [greater] or [less] filter rejects the record. *)
Theorem filter_on_absent_column (record : DataRecord) (f : FilterConfig) :
  column f ∉ Object_keys record →
  column f ∉ Object_prototype_keys →
  (operator f = "contains" →
     matchesFilter record f = includes "undefined" (toLowerCase (value f)))
  ∧ (operator f = "equals" →
     matchesFilter record f = bool_decide ("undefined" = toLowerCase (value f)))
  ∧ (operator f = "greater" ∨ operator f = "less" →
     matchesFilter record f = false).
Proof.
  intros Habsent _. unfold matchesFilter. rewrite (get_absent _ _ Habsent).
  split_and!.
  - by intros ->.
  - by intros ->.
  - by intros [-> | ->].
Qed.

Lemma filter_on_absent_column_witness :
  matchesFilter alice
    {| column := "nickname"; value := "DEF"; operator := "contains" |}
  = includes "undefined" (toLowerCase "DEF").
Proof.
  apply (filter_on_absent_column alice
           {| column := "nickname"; value := "DEF"; operator := "contains" |});
    [| |done].
  - simpl. by intros [= ]%list_elem_of_singleton.
  - unfold Object_prototype_keys. simpl.
    rewrite !not_elem_of_cons. split_and!; try done. apply not_elem_of_nil.
Defined.

Lemma append_empty_r (s : string) : s +:+ "" = s.
Proof. induction s as [|c s IH]; [done | exact (f_equal (String c) IH)]. Qed.

Lemma includes_refl (s : string) : includes s s = true.
Proof. apply includes_spec. exists "", "". simpl. by rewrite append_empty_r. Qed.

(** X8: every record an [equals] filter keeps is kept by the [contains]
    filter on the same column with the same text. *)
Theorem equals_implies_contains (record : DataRecord) (col text : string) :
  matchesFilter record {| column := col; value := text; operator := "equals" |}
    = true →
  matchesFilter record {| column := col; value := text; operator := "contains" |}
    = true.
Proof.
  unfold matchesFilter. simpl. case_bool_decide as Heq; [|done].
  intros _. rewrite Heq. apply includes_refl.
Qed.

Lemma equals_implies_contains_witness :
  matchesFilter alice
    {| column := "name"; value := "ALICE"; operator := "contains" |} = true.
Proof. apply (equals_implies_contains alice "name" "ALICE"). reflexivity. Defined.

Lemma lower_char_idemp (c : ascii) : lower_char (lower_char c) = lower_char c.
Proof. by destruct c as [[] [] [] [] [] [] [] []]. Qed.

Lemma toLowerCase_idemp (s : string) :
  toLowerCase (toLowerCase s) = toLowerCase s.
Proof.
  induction s as [|c s IH]; simpl; [done|]. by rewrite lower_char_idemp, IH.
Qed.

(** X9: for [contains] and [equals] the case of the filter text does not
    matter: the filter with the lower-cased text keeps the same records.
    For [greater] it does matter: [Infinity] is a number to [parseFloat],
    [infinity] is not. *)
Theorem filter_text_case (record : DataRecord) (f : FilterConfig) :
  (operator f = "contains" ∨ operator f = "equals" →
     matchesFilter record
       {| column := column f; value := toLowerCase (value f);
          operator := operator f |}
     = matchesFilter record f)
  ∧ matchesFilter sales_20
      {| column := "sales"; value := "-Infinity"; operator := "greater" |} = true
  ∧ matchesFilter sales_20
      {| column := "sales"; value := toLowerCase "-Infinity";
         operator := "greater" |} = false.
Proof.
  split_and!; [|by vm_compute..].
  intros Hop. unfold matchesFilter. simpl. rewrite toLowerCase_idemp.
  by destruct Hop as [-> | ->].
Qed.

Lemma length_filter_eq {A : Type} (P : A → Prop) `{!∀ x, Decision (P x)}
    (l : list A) :
  length (filter P l) = length l ↔ Forall P l.
Proof.
  induction l as [|x l IH]; [by split; [constructor|]|].
  rewrite filter_cons. destruct (decide (P x)) as [HP|HP]; simpl.
  - rewrite Forall_cons. split.
    + intros [= Hlen]. split; [done | by apply IH].
    + intros [_ Hall]. f_equal. by apply IH.
  - split.
    + intros Hlen. pose proof (length_filter P l). lia.
    + by intros [? _]%Forall_cons.
Qed.

(** X10: the banner [Filtered: n of m records] is shown exactly when
    some record of the table fails some filter; when shown, [n] is
    smaller than [m], the size of the table. *)
Theorem filtered_banner_iff
    (localeCompare : string → string → number) (d : DashboardState) :
  (filteredBanner localeCompare d = None ↔
     Forall (λ record, Forall (λ f, matchesFilter record f = true) (filters d))
       (transformedData d))
  ∧ (∀ n m, filteredBanner localeCompare d = Some (n, m) →
            (n < m)%nat ∧ m = length (transformedData d)
            ∧ n = length (displayData localeCompare d)).
Proof.
  pose proof (sortedData_perm localeCompare d) as Hperm.
  assert (Hlen : (length (displayData localeCompare d)
                  ≤ length (transformedData d))%nat).
  { rewrite displayData_filter, <- Hperm. apply length_filter. }
  unfold filteredBanner. split.
  - case_bool_decide as Hne.
    + split; [done|]. intros Hall. exfalso. apply Hne.
      rewrite displayData_filter, <- Hperm. apply length_filter_eq.
      rewrite Hperm. eapply Forall_impl; [exact Hall|].
      intros record Hr. apply Is_true_true, forallb_forall.
      intros f Hf%list_elem_of_In. by apply (proj1 (Forall_forall _ _) Hr).
    + split; [|done]. intros _.
      rewrite displayData_filter, <- Hperm in Hne.
      apply length_filter_eq in Hne. rewrite Hperm in Hne.
      eapply Forall_impl; [exact Hne|].
      intros record Hr. apply Is_true_true in Hr. rewrite forallb_forall in Hr.
      apply Forall_forall. intros f Hf. by apply Hr, list_elem_of_In.
  - intros n m. case_bool_decide as Hne; [|done].
    intros [= <- <-]. split_and!; [lia | done..].
Qed.

Lemma filter_text_case_witness :
  matchesFilter alice
    {| column := "name"; value := toLowerCase "ALI"; operator := "contains" |}
  = matchesFilter alice
      {| column := "name"; value := "ALI"; operator := "contains" |}.
Proof.
  apply (proj1 (filter_text_case alice
           {| column := "name"; value := "ALI"; operator := "contains" |})).
  by left.
Defined.

(** ** Errors of the API client *)

Lemma or_else_nonempty (a : option string) (b : string) :
  b ≠ "" → or_else a b ≠ "".
Proof.
  intros Hb. unfold or_else. destruct a as [s|]; [|done]. by case_bool_decide.
Qed.

(** X11: for an error of the HTTP layer, [handleError] never produces an
    empty message: it is the response's [detail] when that is present
    and not empty, and without a response body it is the error's own
    message, or the fixed text when that is empty. *)
Theorem handleError_message (body : option ApiError) (axios_message : string) :
  ApiService.handleError (AxiosError body axios_message) ≠ ""
  ∧ (∀ b d, body = Some b → detail b = Some d → d ≠ "" →
       ApiService.handleError (AxiosError body axios_message) = d)
  ∧ (body = None → axios_message ≠ "" →
       ApiService.handleError (AxiosError body axios_message) = axios_message)
  ∧ (body = None → axios_message = "" →
       ApiService.handleError (AxiosError body axios_message)
       = "An unexpected error occurred").
Proof.
  unfold ApiService.handleError. split_and!.
  - assert (or_else (Some axios_message) "An unexpected error occurred" ≠ "")
      by by apply or_else_nonempty.
    destruct body as [b|]; [|done]. by repeat apply or_else_nonempty.
  - intros b d -> Hd Hne. simpl. rewrite Hd. simpl.
    by rewrite bool_decide_false.
  - intros -> Hne. simpl. by rewrite bool_decide_false.
  - by intros -> ->.
Qed.

(** ** Executing a transformation *)

Lemma handleExecuteTransformation_frame
    (post : string → TransformationRequest → Thrown + TransformationResponse)
    (app : AppState) :
  originalData (dashboard (handleExecuteTransformation post app))
     = originalData (dashboard app)
  ∧ selectedTransformation (dashboard (handleExecuteTransformation post app))
     = selectedTransformation (dashboard app)
  ∧ st_parameters (dashboard (handleExecuteTransformation post app))
     = st_parameters (dashboard app)
  ∧ sortConfig (dashboard (handleExecuteTransformation post app))
     = sortConfig (dashboard app)
  ∧ filters (dashboard (handleExecuteTransformation post app))
     = filters (dashboard app)
  ∧ loading (dashboard (handleExecuteTransformation post app))
     = loading (dashboard app).
Proof.
  unfold handleExecuteTransformation, useApi.transformData,
    ApiService.transformData, ApiService.post_or_throw.
  split_and!;
    (destruct (apiRequest (dashboard app)) as [request|]; [|done]);
    by destruct (post "/transform/" request).
Qed.

(** X12: [handleExecuteTransformation] changes the transformed table
    and the API loading state at most.  Without a selected
    transformation, or without data, it does nothing and does not use
    the HTTP layer; when the request fails, the dashboard stays as it
    was and the error message is recorded; when it succeeds, the
    response's table becomes the transformed table and no error is
    recorded. *)
Theorem execute_transformation_effect
    (post : string → TransformationRequest → Thrown + TransformationResponse)
    (app : AppState) :
  (originalData (dashboard (handleExecuteTransformation post app))
     = originalData (dashboard app)
   ∧ selectedTransformation (dashboard (handleExecuteTransformation post app))
     = selectedTransformation (dashboard app)
   ∧ st_parameters (dashboard (handleExecuteTransformation post app))
     = st_parameters (dashboard app)
   ∧ sortConfig (dashboard (handleExecuteTransformation post app))
     = sortConfig (dashboard app)
   ∧ filters (dashboard (handleExecuteTransformation post app))
     = filters (dashboard app)
   ∧ loading (dashboard (handleExecuteTransformation post app))
     = loading (dashboard app))
  ∧ (apiRequest (dashboard app) = None →
     ∀ post', handleExecuteTransformation post' app = app)
  ∧ (∀ request e,
       apiRequest (dashboard app) = Some request →
       post "/transform/" request = inl e →
       dashboard (handleExecuteTransformation post app) = dashboard app
       ∧ api_loading (handleExecuteTransformation post app)
         = {| isLoading := false;
              error := Some (ApiService.handleError e) |})
  ∧ (∀ request reply,
       apiRequest (dashboard app) = Some request →
       post "/transform/" request = inr reply →
       transformedData (dashboard (handleExecuteTransformation post app))
         = response_data reply
       ∧ api_loading (handleExecuteTransformation post app)
         = {| isLoading := false; error := None |}).
Proof.
  split; [apply handleExecuteTransformation_frame|].
  unfold handleExecuteTransformation, useApi.transformData,
    ApiService.transformData, ApiService.post_or_throw.
  split_and!.
  - by intros ->.
  - intros request e -> ->. done.
  - intros request reply -> ->. done.
Qed.

Lemma execute_transformation_witness :
  handleExecuteTransformation
    (λ _ _, inl NotAnError)
    {| dashboard := initialState;
       api_loading := {| isLoading := false; error := None |} |}
  = {| dashboard := initialState;
       api_loading := {| isLoading := false; error := None |} |}.
Proof.
  apply (proj1 (proj2 (execute_transformation_effect (λ _ _, inl NotAnError)
           {| dashboard := initialState;
              api_loading := {| isLoading := false; error := None |} |}))).
  reflexivity.
Defined.

(** X13: a transformation is always applied to the original table:
    after an execution, whatever its outcome, executing again posts the
    same request. *)
Theorem reexecution_posts_same_request
    (post : string → TransformationRequest → Thrown + TransformationResponse)
    (app : AppState) :
  apiRequest (dashboard (handleExecuteTransformation post app))
  = apiRequest (dashboard app).
Proof.
  destruct (handleExecuteTransformation_frame post app)
    as (Ho & Hs & Hp & _).
  unfold apiRequest. by rewrite Ho, Hs, Hp.
Qed.

(** Every sample table has the same columns in all its records. *)
Lemma sample_uniform (type : string) (first record : DataRecord) :
  head (generateSampleData type) = Some first →
  record ∈ generateSampleData type →
  Object_keys record = Object_keys first.
Proof.
  unfold generateSampleData.
  repeat case_bool_decide; simpl; intros [= <-] Hr;
    repeat (apply elem_of_cons in Hr as [-> | Hr]; [done|]);
    by apply elem_of_nil in Hr.
Qed.

(** X14: loading a sample makes it both the original and the
    transformed table, and keeps the sort and the filters that were
    set; the column list then covers every column of the table, and
    every numeric column offered is one of them. *)
Theorem load_sample_effect (type : string) (app : AppState) :
  originalData (dashboard (handleLoadSample type app)) = generateSampleData type
  ∧ transformedData (dashboard (handleLoadSample type app))
    = generateSampleData type
  ∧ sortConfig (dashboard (handleLoadSample type app))
    = sortConfig (dashboard app)
  ∧ filters (dashboard (handleLoadSample type app)) = filters (dashboard app)
  ∧ (∀ c, c ∈ availableColumns (dashboard (handleLoadSample type app))
          ↔ c ∈ table_columns (generateSampleData type))
  ∧ numericColumns (dashboard (handleLoadSample type app))
      ⊆ availableColumns (dashboard (handleLoadSample type app)).
Proof.
  split_and!; try done.
  - intros c. rewrite elem_of_table_columns.
    unfold availableColumns. simpl.
    destruct (generateSampleData type) as [|first rest] eqn:Hs.
    + split; [by intros ?%elem_of_nil | by intros (? & ?%elem_of_nil & _)].
    + split.
      * intros Hc. exists first. split; [left | done].
      * intros (record & Hr & Hc).
        rewrite <- (sample_uniform type first record); [done | by rewrite Hs |].
        by rewrite Hs.
  - unfold numericColumns, availableColumns. simpl.
    destruct (generateSampleData type) as [|first rest]; [done|].
    intros c [_ Hc]%list_elem_of_filter. done.
Qed.

(** ** The table view *)

(** X15: the table is rectangular whatever the records hold: there is
    one row per record, every row has one cell per header column (the
    keys of the first record), and the cell of a record shows a dash
    under a column it holds [null] under, and under a column it lacks
    when the column is no property name that every object inherits.  An
    empty table is answered with the empty notice, a loading table with
    the skeleton. *)
Theorem DataTable_rectangular (toLocaleString : number → string)
    (data : list DataRecord) :
  DataTable toLocaleString data true = Skeleton
  ∧ (DataTable toLocaleString data false = NoData ↔ data = [])
  ∧ (∀ header rows footer,
       DataTable toLocaleString data false = Grid header rows footer →
       length rows = length data
       ∧ Forall (λ row, length row = length header) rows
       ∧ (∀ first, head data = Some first →
            length header = length (Object_keys first))
       ∧ (∀ first i j record row c,
            head data = Some first → data !! i = Some record →
            rows !! i = Some row → Object_keys first !! j = Some c →
            ((c ∉ Object_keys record) ∧ (c ∉ Object_prototype_keys))
            ∨ get record c = JsNull →
            row !! j = Some "-")).
Proof.
  split_and!; [done | destruct data; by split |].
  intros header rows footer.
  destruct (head data) as [first|] eqn:Hhead;
    [|by destruct data].
  assert (Hgrid : ∃ text,
            DataTable toLocaleString data false
            = Grid (replace_underscores <$> Object_keys first)
                ((λ row, (λ c, formatCellValue toLocaleString (get row c))
                           <$> Object_keys first) <$> data) text).
  { destruct data as [|? rest]; [done|]. injection Hhead as ->. by eexists. }
  destruct Hgrid as [text ->]. intros [= <- <- _]. split_and!.
  - by rewrite length_fmap.
  - apply Forall_forall. intros row (record & -> & _)%list_elem_of_fmap.
    by rewrite !length_fmap.
  - intros ? [= <-]. by rewrite length_fmap.
  - intros ? i j record row c [= <-] Hi Hrow Hc Hcell.
    rewrite list_lookup_fmap, Hi in Hrow. injection Hrow as <-.
    rewrite list_lookup_fmap, Hc. simpl. f_equal.
    destruct Hcell as [[Habsent _] | ->]; [|done].
    by rewrite (get_absent _ _ Habsent).
Qed.

Lemma DataTable_witness :
  length [["1"]; ["1"]] = length ragged_table.
Proof.
  refine (proj1 (proj2 (proj2 (DataTable_rectangular (λ _, "1") ragged_table))
           ["a"] [["1"]; ["1"]] "Showing 2 records" _)).
  by vm_compute.
Defined.

(** ** The filter bar *)

(** X16: the filter bar adds a filter only when a column is chosen and a
    text is typed: with either missing nothing changes; otherwise the
    draft goes to the end of the filter list and the inputs are reset,
    so that asking again adds nothing.  Hence a filter list that holds
    no filter with an empty column or an empty text stays so. *)
Theorem handleAddFilter_guard (newFilter : FilterDraft) (d : DashboardState) :
  (draft_column newFilter = "" ∨ draft_value newFilter = "" →
     handleAddFilter newFilter d = (newFilter, d))
  ∧ (draft_column newFilter ≠ "" → draft_value newFilter ≠ "" →
     (handleAddFilter newFilter d).1 = emptyDraft
     ∧ filters (handleAddFilter newFilter d).2
       = filters d ++ [{| column := draft_column newFilter;
                          value := draft_value newFilter;
                          operator := draft_operator newFilter |}]
     ∧ handleAddFilter (handleAddFilter newFilter d).1
         (handleAddFilter newFilter d).2
       = handleAddFilter newFilter d)
  ∧ (Forall (λ f, column f ≠ "" ∧ value f ≠ "") (filters d) →
     Forall (λ f, column f ≠ "" ∧ value f ≠ "")
       (filters (handleAddFilter newFilter d).2)).
Proof.
  unfold handleAddFilter. split_and!.
  - intros [-> | ->]; [done|]. by rewrite andb_false_r.
  - intros Hc Hv. rewrite !bool_decide_false by done. simpl. done.
  - intros Hall. repeat case_bool_decide; simpl; try done.
    apply Forall_app. split; [done|]. by repeat constructor.
Qed.

Lemma handleAddFilter_witness :
  handleAddFilter emptyDraft initialState = (emptyDraft, initialState).
Proof.
  apply (proj1 (handleAddFilter_guard emptyDraft initialState)). by left.
Defined.

(** ** Parameters *)

(** X17: a parameter change sets the keys it names and keeps every
    other parameter, so parameters accumulate: no change of a parameter
    removes a key.  Choosing a transformation type is what clears them:
    a request posted right after carries no parameter. *)
Theorem parameters_accumulate (d : DashboardState)
    (newParams : TransformationParameters) :
  (∀ k, st_parameters
          (dashboardReducer d
             (SET_PARAMETERS (handleParamChange (st_parameters d) newParams)))
        !! k
        = match newParams !! k with
          | Some v => Some v
          | None => st_parameters d !! k
          end)
  ∧ (∀ payload k,
       is_Some (st_parameters d !! k) →
       is_Some (st_parameters (dashboardReducer d (SET_PARAMETERS payload)) !! k))
  ∧ (∀ type request,
       apiRequest (dashboardReducer d (SET_TRANSFORMATION type)) = Some request →
       transformation_type request = type
       ∧ data request = originalData d
       ∧ parameters request = ∅).
Proof.
  split_and!.
  - intros k. simpl. unfold handleParamChange.
    rewrite !lookup_union. destruct (newParams !! k), (st_parameters d !! k); done.
  - intros payload k [v Hv]. simpl. rewrite lookup_union, Hv.
    destruct (payload !! k); by eexists.
  - intros type request. unfold apiRequest. simpl.
    destruct (_ || _); [done|]. by intros [= <-].
Qed.

Lemma parameters_accumulate_witness :
  is_Some (st_parameters
             (dashboardReducer (dashboard pivot_column_chosen)
                (SET_PARAMETERS {[ "values" := JStr "sales" ]}))
           !! "index").
Proof.
  apply (proj1 (proj2 (parameters_accumulate (dashboard pivot_column_chosen) ∅))).
  exists (JStr "region"). by vm_compute.
Defined.

Lemma object_get_set (fields : list (string * Json)) (k c : string) (v : Json) :
  object_get (object_set fields k v) c
  = if bool_decide (k = c) then Some v else object_get fields c.
Proof.
  induction fields as [|[k' v'] fields IH]; simpl.
  - by case_bool_decide.
  - destruct (decide (k' = k)) as [->|Hne].
    + rewrite (bool_decide_true (k = k)) by done. simpl.
      by case_bool_decide.
    + rewrite (bool_decide_false (k' = k)) by done. simpl. rewrite IH.
      repeat case_bool_decide; congruence.
Qed.

Lemma object_get_delete (fields : list (string * Json)) (k c : string) :
  object_get (object_delete fields k) c
  = if bool_decide (k = c) then None else object_get fields c.
Proof.
  induction fields as [|[k' v'] fields IH]; simpl.
  - by case_bool_decide.
  - destruct (decide (k' = k)) as [->|Hne].
    + rewrite (bool_decide_true (k = k)) by done. rewrite IH.
      by case_bool_decide.
    + rewrite (bool_decide_false (k' = k)) by done. simpl. rewrite IH.
      repeat case_bool_decide; congruence.
Qed.

(** X18: choosing a function in an aggregation select records it for
    that column, and choosing the placeholder removes the column from
    the aggregations; the other columns' functions and the other
    parameters are left as they were. *)
Theorem aggregationChange_effect (localParams : TransformationParameters)
    (col selected : string) :
  (selected ≠ "" →
     object_get (aggregations_of (aggregationChange localParams col selected)) col
     = Some (JStr selected))
  ∧ (selected = "" →
     object_get (aggregations_of (aggregationChange localParams col selected)) col
     = None)
  ∧ (∀ c, c ≠ col →
       object_get (aggregations_of (aggregationChange localParams col selected)) c
       = object_get (aggregations_of localParams) c)
  ∧ (∀ k, k ≠ "aggregations" →
       aggregationChange localParams col selected !! k = localParams !! k).
Proof.
  assert (Haggs : aggregations_of (aggregationChange localParams col selected)
            = if negb (bool_decide (selected = ""))
              then object_set (aggregations_of localParams) col (JStr selected)
              else object_delete (aggregations_of localParams) col).
  { unfold aggregationChange, handleParamChange.
    unfold aggregations_of at 1.
    rewrite lookup_union, lookup_singleton_eq. simpl.
    by destruct (localParams !! "aggregations"). }
  split_and!.
  - intros Hsel. rewrite Haggs, bool_decide_false by done. simpl.
    by rewrite object_get_set, bool_decide_true.
  - intros ->. rewrite Haggs. simpl.
    by rewrite object_get_delete, bool_decide_true.
  - intros c Hc. rewrite Haggs.
    destruct (negb _);
      [rewrite object_get_set | rewrite object_get_delete];
      by rewrite bool_decide_false.
  - intros k Hk. unfold aggregationChange, handleParamChange.
    rewrite lookup_union, lookup_singleton_ne by done.
    by destruct (localParams !! k).
Qed.

Lemma aggregationChange_witness :
  object_get (aggregations_of (aggregationChange ∅ "sales" "sum")) "sales"
  = Some (JStr "sum").
Proof. by apply (proj1 (aggregationChange_effect ∅ "sales" "sum")). Defined.

(** ** The order of the sorted table *)

Lemma lt_gt_zero (v : number) :
  Number.lt v zero = true → Number.gt v zero = false.
Proof.
  intros Hlt. destruct (Number.gt v zero) eqn:Hgt; [|done].
  pose proof (lt_trans v zero v Hlt Hgt) as Hvv.
  by rewrite lt_irrefl in Hvv.
Qed.

Lemma consistent_on_spec {A : Type} (cmp : A → A → number) (l : list A) :
  consistent_on cmp l = true →
  (∀ a b, a ∈ l → b ∈ l →
     Number.gt (cmp a b) zero = true → not_after cmp b a = true)
  ∧ (∀ a b c, a ∈ l → b ∈ l → c ∈ l →
       not_after cmp a b = true → not_after cmp b c = true →
       not_after cmp a c = true).
Proof.
  unfold consistent_on. rewrite forallb_forall. intros H. split.
  - intros a b Ha%list_elem_of_In Hb%list_elem_of_In Hgt.
    specialize (H a Ha). rewrite forallb_forall in H.
    specialize (H b Hb). apply andb_prop in H as [Hsign _].
    apply bool_decide_eq_true in Hsign. rewrite Hgt in Hsign.
    unfold not_after. by rewrite lt_gt_zero.
  - intros a b c Ha%list_elem_of_In Hb%list_elem_of_In Hc%list_elem_of_In Hab Hbc.
    specialize (H a Ha). rewrite forallb_forall in H.
    specialize (H b Hb). apply andb_prop in H as [_ H].
    rewrite forallb_forall in H. specialize (H c Hc).
    by rewrite Hab, Hbc in H.
Qed.

(** Inserting keeps a list in which no element comes after a later one. *)
Lemma sort_insert_ordered {A : Type} (cmp : A → A → number) (x : A)
    (l : list A) :
  (∀ y, y ∈ l → Number.gt (cmp x y) zero = true → not_after cmp y x = true) →
  (∀ y z, y ∈ l → z ∈ l →
     not_after cmp x y = true → not_after cmp y z = true →
     not_after cmp x z = true) →
  StronglySorted (λ a b, not_after cmp a b = true) l →
  StronglySorted (λ a b, not_after cmp a b = true) (sort_insert cmp x l).
Proof.
  intros Hafter Htrans Hl. induction Hl as [|y l Hl IH Hy].
  - repeat constructor.
  - cbn [sort_insert]. destruct (Number.gt (cmp x y) zero) eqn:Hxy.
    + constructor.
      * apply IH.
        -- intros z Hz. apply Hafter. by right.
        -- intros z w Hz Hw. apply Htrans; by right.
      * rewrite (sort_insert_perm cmp x l). constructor; [|done].
        apply Hafter; [left | done].
    + assert (Hle : not_after cmp x y = true) by (unfold not_after; by rewrite Hxy).
      constructor; [by constructor|].
      constructor; [done|].
      rewrite Forall_forall in Hy |- *. intros z Hz.
      apply (Htrans y z); [left | by right | done | by apply Hy].
Qed.

Lemma Array_sort_ordered {A : Type} (cmp : A → A → number) (l : list A) :
  consistent_on cmp l = true →
  StronglySorted (λ a b, not_after cmp a b = true) (Array_sort cmp l).
Proof.
  intros [Hafter Htrans]%consistent_on_spec.
  induction l as [|x l IH]; [constructor|].
  cbn [Array_sort foldr]. apply sort_insert_ordered.
  - intros y Hy. apply Hafter; [left | right].
    by rewrite <- (Array_sort_perm cmp l).
  - intros y z Hy Hz. rewrite (Array_sort_perm cmp l) in Hy, Hz.
    apply Htrans; [left | by right | by right].
  - apply IH.
    + intros a b Ha Hb. apply Hafter; by right.
    + intros a b c Ha Hb Hc. apply Htrans; by right.
Qed.

Lemma StronglySorted_lookup_lt {A : Type} (R : A → A → Prop) (l : list A)
    (i j : nat) (a b : A) :
  StronglySorted R l → (i < j)%nat →
  l !! i = Some a → l !! j = Some b → R a b.
Proof.
  intros Hl. revert i j. induction Hl as [|x l Hl IH Hx]; intros i j Hij Hi Hj.
  - done.
  - destruct j as [|j]; [lia|]. destruct i as [|i]; simpl in Hi, Hj.
    + injection Hi as <-. rewrite Forall_forall in Hx.
      apply Hx. by eapply list_elem_of_lookup_2.
    + apply (IH i j); [lia | done..].
Qed.

(** X19: with a sort configuration whose comparator is consistent on
    the table, [sortedData] is in the order of the comparator: a row is
    never put after a row that stands later in the sorted table. *)
Theorem sortedData_in_order
    (localeCompare : string → string → number)
    (state : DashboardState) (cfg : SortConfig) :
  sortConfig state = Some cfg →
  consistent_on (compareRecords localeCompare cfg) (transformedData state) = true →
  ∀ i j a b, (i < j)%nat →
    sortedData localeCompare state !! i = Some a →
    sortedData localeCompare state !! j = Some b →
    Number.gt (compareRecords localeCompare cfg a b) zero = false.
Proof.
  intros Hcfg Hcons i j a b Hij Hi Hj.
  unfold sortedData in Hi, Hj. rewrite Hcfg in Hi, Hj.
  apply (Array_sort_ordered _ _) in Hcons.
  pose proof (StronglySorted_lookup_lt _ _ i j a b Hcons Hij Hi Hj) as H.
  unfold not_after in H. by apply negb_true_iff in H.
Qed.

Lemma sortedData_in_order_witness :
  Number.gt
    (compareRecords flat_collation {| key := "age"; direction := desc |}
       [("name", JsString "Charlie"); ("age", JsNumber (of_Z 35));
        ("city", JsString "New York"); ("score", JsNumber (of_Z 78))]
       [("name", JsString "Frank"); ("age", JsNumber (of_Z 29));
        ("city", JsString "New York"); ("score", JsNumber (of_Z 82))])
    zero = false.
Proof.
  apply (sortedData_in_order flat_collation
           (dashboardReducer users_by_absent_column
              (SET_SORT (Some {| key := "age"; direction := desc |})))
           {| key := "age"; direction := desc |} eq_refl eq_refl 0 3)%nat.
  - lia.
  - by vm_compute.
  - by vm_compute.
Defined.
